(** * Coffee-Shop backend: the authentication and authorisation core

    A shallow embedding of [backend/src/auth/auth.py] and of the error
    boundary of [backend/src/api.py].

    Python dictionaries are finite maps ([gmap string _]); JSON documents
    are the values [json.loads] produces; an exception is a value of
    [exn], and code that can raise returns an [outcome].  Calls that leave
    the repository ([urlopen], [json.loads], [jose.jwt]) are parameters of
    the section that embeds [verify_decode_jwt]. *)

From stdpp Require Import gmap strings list fin_maps.
From Stdlib Require Import ZArith Ascii String.

Set Warnings "-register-all".
Local Open Scope Z_scope.
Local Open Scope string_scope.
Local Open Scope list_scope.

(** ** Python values and built-in operations *)

Module Py.

(** What [json.loads] returns.  Numbers are integers here: no code path
    of the auth core does arithmetic, and only [==] ever looks at one. *)
Inductive json :=
| JNull
| JBool (b : bool)
| JNum (n : Z)
| JStr (s : string)
| JArr (l : list json)
| JObj (m : gmap string json).

(** Exceptions that do not belong to this repository: the built-in ones
    and those of the libraries the auth core calls. *)
Inductive py_exception :=
| KeyError (key : string)
| TypeError
| URLError
| JSONDecodeError
| UnicodeDecodeError
| JWTError
| ExpiredSignatureError
| JWTClaimsError
| HTTPException (code : Z)
| OtherException (name : string)
| BaseExceptionOnly (name : string).

(** [isinstance(e, Exception)]: everything but [KeyboardInterrupt],
    [SystemExit] and the like, which derive from [BaseException] only. *)
Definition is_Exception (e : py_exception) : bool :=
  match e with
  | BaseExceptionOnly _ => false
  | _ => true
  end.

(** Python's [==] on decoded JSON: [True == 1], lists compare element by
    element, dictionaries compare as maps. *)
Fixpoint py_eq (a b : json) {struct a} : bool :=
  match a, b with
  | JNull, JNull => true
  | JBool x, JBool y => Bool.eqb x y
  | JBool x, JNum n | JNum n, JBool x => Z.eqb n (if x then 1 else 0)
  | JNum n, JNum m => Z.eqb n m
  | JStr s, JStr t => String.eqb s t
  | JArr l, JArr l' =>
      (fix go (l l' : list json) : bool :=
         match l, l' with
         | [], [] => true
         | x :: xs, y :: ys => py_eq x y && go xs ys
         | _, _ => false
         end) l l'
  | JObj m, JObj m' =>
      Nat.eqb (size m) (size m') &&
      map_fold (fun k v acc =>
                  acc && match m' !! k with
                         | Some v' => py_eq v v'
                         | None => false
                         end) true m
  | _, _ => false
  end.

(** [str.lower()] on the code points below 256 (WSGI hands header values
    over as Latin-1 text): A-Z and the accented capitals move up by 32. *)
Definition lower_char (c : ascii) : ascii :=
  let n := N_of_ascii c in
  if (((65 <=? n) && (n <=? 90)) ||
      ((192 <=? n) && (n <=? 222) && negb (n =? 215)))%N
  then ascii_of_N (n + 32)
  else c.

Fixpoint lower (s : string) : string :=
  match s with
  | EmptyString => EmptyString
  | String c rest => String (lower_char c) (lower rest)
  end.

(** [s.split(sep)] for a one-character separator: every occurrence cuts,
    so adjacent separators leave empty parts and [''.split(' ')] is
    [['']]. *)
Fixpoint split (sep : ascii) (s : string) : list string :=
  match s with
  | EmptyString => [EmptyString]
  | String c rest =>
      if Ascii.eqb c sep then EmptyString :: split sep rest
      else match split sep rest with
           | [] => [String c EmptyString]
           | part :: parts => String c part :: parts
           end
  end.

Fixpoint startswith (p s : string) : bool :=
  match p, s with
  | EmptyString, _ => true
  | String a p', String b s' => Ascii.eqb a b && startswith p' s'
  | String _ _, EmptyString => false
  end.

(** [p in s] for two strings. *)
Fixpoint str_contains (p s : string) : bool :=
  startswith p s ||
  match s with
  | EmptyString => false
  | String _ s' => str_contains p s'
  end.

Fixpoint chars (s : string) : list string :=
  match s with
  | EmptyString => []
  | String c rest => String c EmptyString :: chars rest
  end.

End Py.

Export Py.

(** ** Raising and propagating *)

Module Exc.

(** The exception of [auth.py]: a dictionary and a status code. *)
Record AuthError := mkAuthError {
  error : gmap string string;
  status_code : Z
}.

Inductive exn :=
| AuthErr (e : AuthError)
| PyErr (e : py_exception).

Inductive outcome (A : Type) :=
| Return (a : A)
| Raise (e : exn).

Arguments Return {A} a.
Arguments Raise {A} e.

#[export] Instance outcome_ret : MRet outcome := fun A a => Return a.

#[export] Instance outcome_bind : MBind outcome :=
  fun A B k m =>
    match m with
    | Return a => k a
    | Raise e => Raise e
    end.

(** The result of a library call: libraries never raise [AuthError]. *)
Definition lib_call {A} (r : py_exception + A) : outcome A :=
  match r with
  | inl e => Raise (PyErr e)
  | inr a => Return a
  end.

(** [d[k]] for a string [k]. *)
Definition getitem (d : json) (k : string) : outcome json :=
  match d with
  | JObj m =>
      match m !! k with
      | Some v => Return v
      | None => Raise (PyErr (KeyError k))
      end
  | _ => Raise (PyErr TypeError)
  end.

(** [for x in d]: the elements of a list, the keys of a dictionary, the
    characters of a string; anything else is not iterable.  (The order of
    a dictionary's keys is of no account to the auth core: the only loop
    subscripts each item, and a string cannot be subscripted by name.) *)
Definition iter (d : json) : outcome (list json) :=
  match d with
  | JArr l => Return l
  | JObj m => Return (JStr <$> (map_to_list m).*1)
  | JStr s => Return (JStr <$> chars s)
  | _ => Raise (PyErr TypeError)
  end.

(** [x in d] for a string [x]. *)
Definition contains (x : string) (d : json) : outcome bool :=
  match d with
  | JArr l => Return (existsb (py_eq (JStr x)) l)
  | JObj m => Return (bool_decide (is_Some (m !! x)))
  | JStr s => Return (str_contains x s)
  | _ => Raise (PyErr TypeError)
  end.

(** Truth value of a dictionary: empty is false. *)
Definition truthy {V} (m : gmap string V) : bool :=
  bool_decide (size m ≠ 0%nat).

End Exc.

Export Exc.


(** ** [auth.py] *)

Module Auth.

Definition AUTH0_DOMAIN : string := "dev-vibe.us.auth0.com".
Definition ALGORITHMS : list string := ["RS256"].
Definition API_AUDIENCE : string := "coffee".

(** The part of [flask.request] a view can read. *)
Record request := mkRequest {
  headers : gmap string string;
  body : string
}.

Definition space : ascii := " "%char.

(** [get_token_auth_header()], lines 37-58; [flask.request] is the
    argument. *)
Definition get_token_auth_header (req : request) : outcome string :=
  let data := headers req in
  match data !! "Authorization" with
  | None =>
      Raise (AuthErr {|
        error := {[ "code" := "authorization_header_missing";
                    "description" := "Authorization header is expected" ]};
        status_code := 401 |})
  | Some value =>
      let auth_parts := split space value in
      if negb (Nat.eqb (List.length auth_parts) 2)
         || negb (String.eqb (lower (nth 0 auth_parts "")) "bearer")
      then
        Raise (AuthErr {|
          error := {[ "code" := "invalid_header";
                      "description" :=
                        "header must start with 'Bearer' and include proper token" ]};
          status_code := 401 |})
      else
        let token := nth 1 auth_parts "" in
        Return token
  end.

(** [check_permissions(permission, payload)], lines 74-90.  The payload is
    a dictionary passed by reference, so the embedding hands it back next
    to the result. *)
Definition check_permissions (permission : string) (payload : gmap string json)
  : outcome bool * gmap string json :=
  match payload !! "permissions" with
  | None =>
      (Raise (AuthErr {|
         error := {[ "code" := "missing_permissions";
                     "description" := "permissions must be sent with token" ]};
         status_code := 401 |}), payload)
  | Some permissions =>
      match contains permission permissions with
      | Raise e => (Raise e, payload)
      | Return found =>
          if negb found then
            (Raise (AuthErr {|
               error := {[ "code" := "not_authorized";
                           "description" :=
                             "needed permission not found in permissions" ]};
               status_code := 401 |}), payload)
          else (Return true, payload)
      end
  end.

(** The dictionary literal of lines 127-133: the five subscripts are
    evaluated in the order written, the first missing one raises. *)
Definition build_rsa_key (key : json) : outcome (gmap string json) :=
  kty ← getitem key "kty";
  kid ← getitem key "kid";
  use ← getitem key "use";
  n ← getitem key "n";
  e ← getitem key "e";
  mret ({[ "kty" := kty; "kid" := kid; "use" := use; "n" := n; "e" := e ]}
        : gmap string json).

(** One turn of the loop of lines 125-133. *)
Definition scan_step (header_kid : json) (rsa_key : gmap string json) (key : json)
  : outcome (gmap string json) :=
  kid ← getitem key "kid";
  if py_eq kid header_kid then build_rsa_key key else mret rsa_key.

(** The whole loop: [rsa_key] is overwritten at every match. *)
Fixpoint scan_keys (header_kid : json) (keys : list json) (rsa_key : gmap string json)
  : outcome (gmap string json) :=
  match keys with
  | [] => mret rsa_key
  | key :: rest =>
      rsa_key' ← scan_step header_kid rsa_key key;
      scan_keys header_kid rest rsa_key'
  end.

Definition jwks_url : string :=
  "https://" +:+ AUTH0_DOMAIN +:+ "/.well-known/jwks.json".

Definition issuer : string := "https://" +:+ AUTH0_DOMAIN +:+ "/".

Section VerifyDecodeJwt.

(** [urlopen(url).read().decode('utf-8')]: the response text, or the
    exception the transport or the decoding raised. *)
Variable urlopen_read : string -> py_exception + string.
(** [json.loads]. *)
Variable json_loads : string -> py_exception + json.
(** [jwt.get_unverified_header]. *)
Variable get_unverified_header : string -> py_exception + gmap string json.
(** [jwt.decode(token, key, algorithms=, audience=, issuer=)]. *)
Variable jwt_decode :
  string -> gmap string json -> list string -> string -> string ->
  py_exception + gmap string json.

(** The [try] block of lines 137-159. *)
Definition decode_and_classify (token : string) (rsa_key : gmap string json)
  : outcome (gmap string json) :=
  match jwt_decode token rsa_key ALGORITHMS API_AUDIENCE issuer with
  | inr payload => Return payload
  | inl ExpiredSignatureError =>
      Raise (AuthErr {|
        error := {[ "code" := "token_expired";
                    "description" := "token is expired" ]};
        status_code := 401 |})
  | inl JWTClaimsError =>
      Raise (AuthErr {|
        error := {[ "code" := "invalid_claims";
                    "description" :=
                      "incorrect claims,please check the audience and issuer" ]};
        status_code := 401 |})
  | inl e =>
      if is_Exception e then
        Raise (AuthErr {|
          error := {[ "code" := "invalid_header";
                      "description" := "Unable to parse authentication token." ]};
          status_code := 401 |})
      else Raise (PyErr e)
  end.

(** [verify_decode_jwt(token)], lines 109-162. *)
Definition verify_decode_jwt (token : string) : outcome (gmap string json) :=
  text ← lib_call (urlopen_read jwks_url);
  jwks ← lib_call (json_loads text);
  unverified_header ← lib_call (get_unverified_header token);
  match unverified_header !! "kid" with
  | None =>
      Raise (AuthErr {|
        error := {[ "code" := "invalid_header";
                    "description" := "Authorization malformed." ]};
        status_code := 401 |})
  | Some header_kid =>
      keys ← getitem jwks "keys";
      entries ← iter keys;
      rsa_key ← scan_keys header_kid entries ∅;
      if truthy rsa_key then decode_and_classify token rsa_key
      else
        Raise (AuthErr {|
          error := {[ "code" := "invalid_header";
                      "description" := "Unable to find appropriate key" ]};
          status_code := 401 |})
  end.

End VerifyDecodeJwt.

(** *** The decorator *)

(** What a view returns: [(jsonify(body), status)]. *)
Definition response : Type := json * Z.

Section RequiresAuth.

(** Everything a view can reach besides its arguments and the request:
    the drinks table. *)
Context {Db : Type}.

(** A view function, called with positional and keyword arguments
    inside a request. *)
Definition view : Type :=
  list json -> gmap string json -> request -> Db -> outcome response * Db.

(** The state a request runs in.  [invocations] is a ghost log: it
    records, in order, the arguments of every call of a wrapped view. *)
Record world := mkWorld {
  db : Db;
  invocations : list (list json * gmap string json)
}.

Definition gate (A : Type) : Type := world -> outcome A * world.

Definition gate_ret {A} (a : A) : gate A := fun w => (Return a, w).

Definition gate_bind {A B} (m : gate A) (k : A -> gate B) : gate B :=
  fun w =>
    match m w with
    | (Return a, w') => k a w'
    | (Raise e, w') => (Raise e, w')
    end.

(** A step that only computes: the world is left as it is. *)
Definition pure_step {A} (o : outcome A) : gate A := fun w => (o, w).

(** The call of [f] with [args] and [kwargs]: the view runs on the
    drinks table and the call is logged. *)
Definition call_view (f : view) (args : list json) (kwargs : gmap string json)
           (req : request) : gate response :=
  fun w =>
    let '(r, d) := f args kwargs req (db w) in
    (r, {| db := d; invocations := invocations w ++ [(args, kwargs)] |}).

Variable urlopen_read : string -> py_exception + string.
Variable json_loads : string -> py_exception + json.
Variable get_unverified_header : string -> py_exception + gmap string json.
Variable jwt_decode :
  string -> gmap string json -> list string -> string -> string ->
  py_exception + gmap string json.

(** [requires_auth(permission)(f)], lines 177-187: the [wrapper]. *)
Definition requires_auth (permission : string) (f : view)
           (args : list json) (kwargs : gmap string json) (req : request)
  : gate response :=
  gate_bind (pure_step (get_token_auth_header req)) (fun token =>
  gate_bind (pure_step (verify_decode_jwt urlopen_read json_loads
                          get_unverified_header jwt_decode token)) (fun payload =>
  gate_bind (pure_step (check_permissions permission payload).1) (fun _ =>
  call_view f args kwargs req))).

End RequiresAuth.

Arguments world : clear implicits.
Arguments view : clear implicits.

End Auth.

Export Auth.

(** ** The error boundary of [api.py] *)

Module Api.

(** [auth_error(exception)], lines 218-224. *)
Definition auth_error (exception : AuthError) : outcome response :=
  match error exception !! "description" with
  | None => Raise (PyErr (KeyError "description"))
  | Some description =>
      Return (JObj {[ "success" := JBool false;
                      "error" := JNum (status_code exception);
                      "message" := JStr description ]},
              status_code exception)
  end.

(** The handlers of lines 169-210, registered for [abort(code)]. *)
Definition abort_handler (code : Z) : option response :=
  if (code =? 422)%Z then
    Some (JObj {[ "success" := JBool false; "error" := JNum 422;
                  "message" := JStr "unprocessable" ]}, 422)
  else if (code =? 404)%Z then
    Some (JObj {[ "success" := JBool false; "error" := JNum 404;
                  "message" := JStr "resource not found" ]}, 404)
  else if (code =? 400)%Z then
    Some (JObj {[ "success" := JBool false; "error" := JNum 400;
                  "message" := JStr "bad request" ]}, 400)
  else None.

(** What the [@app.errorhandler] registrations do with an exception that
    leaves a view: an [AuthError] goes to [auth_error], an aborted request
    to the handler of its code, and anything else stays unhandled. *)
Definition errorhandler (e : exn) : outcome response :=
  match e with
  | AuthErr a => auth_error a
  | PyErr (HTTPException code) =>
      match abort_handler code with
      | Some r => Return r
      | None => Raise e
      end
  | PyErr _ => Raise e
  end.

(** A request served by a view: the view runs, and what it raises is
    handed to the registered handlers. *)
Definition dispatch {Db} (v : list json -> gmap string json -> request -> gate (Db:=Db) response)
           (args : list json) (kwargs : gmap string json) (req : request)
  : gate (Db:=Db) response :=
  fun w =>
    match v args kwargs req w with
    | (Return r, w') => (Return r, w')
    | (Raise e, w') => (errorhandler e, w')
    end.

End Api.

Export Api.

(** ** Vocabulary of the statements *)

Module Words.

(** [c in s] for a character. *)
Fixpoint has_char (c : ascii) (s : string) : bool :=
  match s with
  | EmptyString => false
  | String c' rest => Ascii.eqb c' c || has_char c rest
  end.

(** [sep.join(parts)]. *)
Fixpoint join (sep : ascii) (parts : list string) : string :=
  match parts with
  | [] => EmptyString
  | [part] => part
  | part :: rest => part +:+ String sep (join sep rest)
  end.

(** A header value of the shape [<scheme> <token>]: one space, a scheme
    that reads "bearer" whatever its case, and a token without a space. *)
Definition bearer_shape (value token : string) : Prop :=
  exists scheme, value = scheme +:+ String space token
                 /\ lower scheme = "bearer"
                 /\ has_char space token = false.

Definition has_code (e : AuthError) (code : string) : Prop :=
  error e !! "code" = Some code.

(** The nine [AuthError] values the auth core constructs, by raise site. *)
Definition auth_error_of (code description : string) : AuthError :=
  {| error := {[ "code" := code; "description" := description ]};
     status_code := 401 |}.

Definition header_missing : AuthError :=
  auth_error_of "authorization_header_missing" "Authorization header is expected".

Definition header_malformed : AuthError :=
  auth_error_of "invalid_header"
                "header must start with 'Bearer' and include proper token".

Definition permissions_missing : AuthError :=
  auth_error_of "missing_permissions" "permissions must be sent with token".

Definition permission_not_found : AuthError :=
  auth_error_of "not_authorized" "needed permission not found in permissions".

Definition kid_missing : AuthError :=
  auth_error_of "invalid_header" "Authorization malformed.".

Definition key_not_found : AuthError :=
  auth_error_of "invalid_header" "Unable to find appropriate key".

Definition token_expired : AuthError :=
  auth_error_of "token_expired" "token is expired".

Definition claims_invalid : AuthError :=
  auth_error_of "invalid_claims"
                "incorrect claims,please check the audience and issuer".

Definition token_unparsable : AuthError :=
  auth_error_of "invalid_header" "Unable to parse authentication token.".

Definition auth_errors : list AuthError :=
  [header_missing; header_malformed; permissions_missing; permission_not_found;
   kid_missing; key_not_found; token_expired; claims_invalid; token_unparsable].

Definition tab : ascii := ascii_of_N 9.

(** The whitespace of [str.split()] and [str.isspace()] below 256. *)
Definition is_whitespace (c : ascii) : bool :=
  let n := N_of_ascii c in
  (((9 <=? n) && (n <=? 13)) || ((28 <=? n) && (n <=? 32))
   || (n =? 133) || (n =? 160))%N.

(** Cut at every character that satisfies [p]. *)
Fixpoint split_at (p : ascii -> bool) (s : string) : list string :=
  match s with
  | EmptyString => [EmptyString]
  | String c rest =>
      if p c then EmptyString :: split_at p rest
      else match split_at p rest with
           | [] => [String c EmptyString]
           | part :: parts => String c part :: parts
           end
  end.

(** Splitting on whitespace, as the specification words it (section 4.1):
    runs of whitespace separate, no part is empty. *)
Definition split_whitespace (s : string) : list string :=
  filter (fun part => part <> EmptyString) (split_at is_whitespace s).

(** The Token Extractor as section 4.1 of the specification words it:
    [get_token_auth_header] with the header value split on whitespace. *)
Definition spec_get_token_auth_header (req : request) : outcome string :=
  match headers req !! "Authorization" with
  | None =>
      Raise (AuthErr {|
        error := {[ "code" := "authorization_header_missing";
                    "description" := "Authorization header is expected" ]};
        status_code := 401 |})
  | Some value =>
      match split_whitespace value with
      | [scheme; token] =>
          if String.eqb (lower scheme) "bearer" then Return token
          else
            Raise (AuthErr {|
              error := {[ "code" := "invalid_header";
                          "description" :=
                            "header must start with 'Bearer' and include proper token" ]};
              status_code := 401 |})
      | _ =>
          Raise (AuthErr {|
            error := {[ "code" := "invalid_header";
                        "description" :=
                          "header must start with 'Bearer' and include proper token" ]};
            status_code := 401 |})
      end
  end.

(** The five fields of a key record. *)
Definition key_fields : list string := ["kty"; "kid"; "use"; "n"; "e"].

(** A key record of the key set (specification, sections 3 and 4.2): a
    JSON object that carries the five fields. *)
Definition key_record (entry : json) : Prop :=
  exists m, entry = JObj m /\ Forall (fun field => is_Some (m !! field)) key_fields.

(** [entry["kid"] == header_kid]. *)
Definition kid_matches (header_kid entry : json) : Prop :=
  exists kid, getitem entry "kid" = Return kid /\ py_eq kid header_kid = true.

Definition kid_differs (header_kid entry : json) : Prop :=
  exists kid, getitem entry "kid" = Return kid /\ py_eq kid header_kid = false.

Section Stages.

Variable urlopen_read : string -> py_exception + string.
Variable json_loads : string -> py_exception + json.
Variable get_unverified_header : string -> py_exception + gmap string json.
Variable jwt_decode :
  string -> gmap string json -> list string -> string -> string ->
  py_exception + gmap string json.

(** The key set was fetched and parsed, and the token's header read. *)
Definition fetched (token : string) (jwks : json) (header : gmap string json) : Prop :=
  exists text, urlopen_read jwks_url = inr text
               /\ json_loads text = inr jwks
               /\ get_unverified_header token = inr header.

(** The scan of the fetched key set ended with the non-empty record
    [rsa_key]: a matching key was located. *)
Definition key_located (token : string) (rsa_key : gmap string json) : Prop :=
  exists jwks header header_kid keys entries,
    fetched token jwks header
    /\ header !! "kid" = Some header_kid
    /\ getitem jwks "keys" = Return keys
    /\ iter keys = Return entries
    /\ scan_keys header_kid entries ∅ = Return rsa_key
    /\ rsa_key <> ∅.

(** One of the three stages of the gate raises [x], the earlier ones
    having passed. *)
Definition stage_raises (permission : string) (req : request) (x : exn) : Prop :=
  get_token_auth_header req = Raise x
  \/ (exists token,
        get_token_auth_header req = Return token
        /\ verify_decode_jwt urlopen_read json_loads get_unverified_header
             jwt_decode token = Raise x)
  \/ (exists token payload,
        get_token_auth_header req = Return token
        /\ verify_decode_jwt urlopen_read json_loads get_unverified_header
             jwt_decode token = Return payload
        /\ (check_permissions permission payload).1 = Raise x).

(** All three stages pass and the verifier hands over [payload]. *)
Definition stages_pass (permission : string) (req : request)
           (payload : gmap string json) : Prop :=
  exists token,
    get_token_auth_header req = Return token
    /\ verify_decode_jwt urlopen_read json_loads get_unverified_header
         jwt_decode token = Return payload
    /\ (check_permissions permission payload).1 = Return true.

(** [e] is an [AuthError] that some function of the auth core raises. *)
Definition auth_core_raises (e : AuthError) : Prop :=
  (exists req, get_token_auth_header req = Raise (AuthErr e))
  \/ (exists token,
        verify_decode_jwt urlopen_read json_loads get_unverified_header
          jwt_decode token = Raise (AuthErr e))
  \/ (exists permission payload,
        (check_permissions permission payload).1 = Raise (AuthErr e)).

(** The decorator as its docstring describes it (auth.py, lines 164-174:
    the decorator "passes the decoded payload to the decorated method"):
    the payload is the first positional argument of the view. *)
Definition documented_requires_auth {Db} (permission : string) (f : view Db)
           (args : list json) (kwargs : gmap string json) (req : request)
  : gate (Db:=Db) response :=
  gate_bind (pure_step (get_token_auth_header req)) (fun token =>
  gate_bind (pure_step (verify_decode_jwt urlopen_read json_loads
                          get_unverified_header jwt_decode token)) (fun payload =>
  gate_bind (pure_step (check_permissions permission payload).1) (fun _ =>
  call_view f (JObj payload :: args) kwargs req))).

End Stages.

End Words.

Export Words.

(** ** Concrete requests, key sets and library answers *)

Module Fixtures.

Definition request_without_header : request :=
  {| headers := ∅; body := "" |}.

Definition request_with (value : string) : request :=
  {| headers := {[ "Authorization" := value ]}; body := "" |}.

Definition key_map (kid n : string) : gmap string json :=
  {[ "kty" := JStr "RSA"; "kid" := JStr kid; "use" := JStr "sig";
     "n" := JStr n; "e" := JStr "AQAB"; "alg" := JStr "RS256" ]}.

Definition key_entry (kid n : string) : json := JObj (key_map kid n).

(** The verification key built from [key_entry "k1" "last"]. *)
Definition rsa_key_last : gmap string json :=
  {[ "kty" := JStr "RSA"; "kid" := JStr "k1"; "use" := JStr "sig";
     "n" := JStr "last"; "e" := JStr "AQAB" ]}.

(** A key set in which the identifier "k1" occurs twice. *)
Definition jwks_two_matches : json :=
  JObj {[ "keys" := JArr [key_entry "k1" "first"; key_entry "k0" "other";
                          key_entry "k1" "last"] ]}.

Definition header_k1 : gmap string json :=
  {[ "alg" := JStr "RS256"; "typ" := JStr "JWT"; "kid" := JStr "k1" ]}.

Definition header_k9 : gmap string json :=
  {[ "alg" := JStr "RS256"; "kid" := JStr "k9" ]}.

Definition header_without_kid : gmap string json :=
  {[ "alg" := JStr "RS256"; "typ" := JStr "JWT" ]}.

Definition payload_detail : gmap string json :=
  {[ "iss" := JStr "https://dev-vibe.us.auth0.com/"; "aud" := JStr "coffee";
     "permissions" := JArr [JStr "get:drinks-detail"] ]}.

Definition payload_without_permissions : gmap string json :=
  {[ "iss" := JStr "https://dev-vibe.us.auth0.com/"; "aud" := JStr "coffee" ]}.

Definition net_up : string -> py_exception + string :=
  fun _ => inr "{...}".

Definition net_down : string -> py_exception + string :=
  fun _ => inl URLError.

Definition loads_two_matches : string -> py_exception + json :=
  fun _ => inr jwks_two_matches.

Definition loads_garbled : string -> py_exception + json :=
  fun _ => inl JSONDecodeError.

Definition read_header (h : gmap string json)
  : string -> py_exception + gmap string json :=
  fun _ => inr h.

Definition decode_to (r : py_exception + gmap string json)
  : string -> gmap string json -> list string -> string -> string ->
    py_exception + gmap string json :=
  fun _ _ _ _ _ => r.

(** A view that answers with the positional arguments it was called
    with. *)
Definition echo_view : view unit :=
  fun args _ _ d => (Return (JArr args, 200), d).

Definition fresh_world : world unit :=
  {| db := tt; invocations := [] |}.

End Fixtures.

Export Fixtures.

(** ** The views of [api.py] *)

Module Views.

(** Code that works on the drinks table: it may raise, and it may leave
    the table changed either way. *)
Definition dbop (Db A : Type) : Type := Db -> outcome A * Db.

#[export] Instance dbop_ret {Db} : MRet (dbop Db) :=
  fun A a d => (Return a, d).

#[export] Instance dbop_bind {Db} : MBind (dbop Db) :=
  fun A B k m d =>
    match m d with
    | (Return a, d') => k a d'
    | (Raise e, d') => (Raise e, d')
    end.

(** A computation that does not touch the table. *)
Definition lift {Db A} (o : outcome A) : dbop Db A := fun d => (o, d).

(** [abort(code)]. *)
Definition abort {Db A} (code : Z) : dbop Db A :=
  lift (Raise (PyErr (HTTPException code))).

(** [try: m except: handler], with the bare [except] of the views: it
    takes whatever was raised. *)
Definition try_except {Db A} (m handler : dbop Db A) : dbop Db A :=
  fun d =>
    match m d with
    | (Return a, d') => (Return a, d')
    | (Raise _, d') => handler d'
    end.

(** A list comprehension [[f(x) for x in l]]. *)
Fixpoint for_each {Db A B} (f : A -> dbop Db B) (l : list A) : dbop Db (list B) :=
  match l with
  | [] => mret []
  | x :: rest =>
      y ← f x;
      ys ← for_each f rest;
      mret (y :: ys)
  end.

(** The call of a function without parameters. *)
Definition no_parameters (args : list json) (kwargs : gmap string json)
  : outcome unit :=
  match args with
  | [] =>
      if bool_decide (size kwargs = 0%nat) then Return tt
      else Raise (PyErr TypeError)
  | _ :: _ => Raise (PyErr TypeError)
  end.

(** The call of a function with the one parameter [name]. *)
Definition one_parameter (name : string) (args : list json)
           (kwargs : gmap string json) : outcome json :=
  match args with
  | [] =>
      match kwargs !! name with
      | Some v =>
          if bool_decide (size kwargs = 1%nat) then Return v
          else Raise (PyErr TypeError)
      | None => Raise (PyErr TypeError)
      end
  | [v] =>
      if bool_decide (size kwargs = 0%nat) then Return v
      else Raise (PyErr TypeError)
  | _ => Raise (PyErr TypeError)
  end.

(** [data.keys()]: only a dictionary has the method. *)
Definition keys (data : json) : outcome (gmap string json) :=
  match data with
  | JObj m => Return m
  | _ => Raise (PyErr (OtherException "AttributeError"))
  end.

(** [database/models.py] is not among the sources.  What the views use of
    it is this interface; every operation may raise and may change the
    table. *)
Class DrinkModel (Db Drink : Type) := {
  (** [Drink.query.all()] *)
  query_all : dbop Db (list Drink);
  (** [Drink.query.get(id)]: [None] or a drink *)
  query_get : json -> dbop Db (option Drink);
  (** [Drink(title=title, recipe=recipe)] *)
  new_drink_object : json -> string -> dbop Db Drink;
  (** [drink.title = value] *)
  set_title : json -> Drink -> dbop Db Drink;
  (** [drink.recipe = value] *)
  set_recipe : string -> Drink -> dbop Db Drink;
  (** [drink.insert()], [drink.update()]: the drink as the call leaves it *)
  insert : Drink -> dbop Db Drink;
  update : Drink -> dbop Db Drink;
  (** [drink.delete()] *)
  delete : Drink -> dbop Db unit;
  (** [drink.short()], [drink.long()] *)
  short : Drink -> dbop Db json;
  long : Drink -> dbop Db json;
  (** the truth value of a drink in [if not my_drink] *)
  drink_is_true : Drink -> bool
}.

Section Handlers.

Context {Db Drink : Type} `{DrinkModel Db Drink}.

(** [request.get_json()]. *)
Variable get_json : request -> py_exception + json.
(** [json.dumps], on what [get_json] returned. *)
Variable json_dumps : json -> string.

(** [get_drinks()], lines 33-40. *)
Definition get_drinks : view Db :=
  fun args kwargs req =>
    _ ← lift (no_parameters args kwargs);
    all_drinks ← query_all;
    drinks ← for_each short all_drinks;
    mret (JObj {[ "success" := JBool true; "drinks" := JArr drinks ]}, 200).

(** [drinks_detail()], lines 54-62, without its decorators. *)
Definition drinks_detail : view Db :=
  fun args kwargs req =>
    _ ← lift (no_parameters args kwargs);
    all_drinks ← query_all;
    drinks ← for_each long all_drinks;
    mret (JObj {[ "success" := JBool true; "drinks" := JArr drinks ]}, 200).

(** [new_drink()], lines 77-96. *)
Definition new_drink : view Db :=
  fun args kwargs req =>
    _ ← lift (no_parameters args kwargs);
    data ← lift (lib_call (get_json req));
    fields ← lift (keys data);
    match fields !! "title" with
    | None => abort 400
    | Some title =>
        fields' ← lift (keys data);
        match fields' !! "recipe" with
        | None => abort 400
        | Some recipe_value =>
            let recipe := json_dumps recipe_value in
            drink ← new_drink_object title recipe;
            try_except
              (drink' ← insert drink;
               shown ← long drink';
               mret (JObj {[ "success" := JBool true;
                             "drinks" := JArr [shown] ]}, 200))
              (abort 422)
        end
    end.

(** [edit_drink(id)], lines 112-133. *)
Definition edit_drink : view Db :=
  fun args kwargs req =>
    id ← lift (one_parameter "id" args kwargs);
    found ← query_get id;
    match found with
    | None => abort 404
    | Some my_drink =>
        if negb (drink_is_true my_drink) then abort 404
        else
          data ← lift (lib_call (get_json req));
          fields ← lift (keys data);
          titled ← match fields !! "title" with
                   | Some title => set_title title my_drink
                   | None => mret my_drink
                   end;
          fields' ← lift (keys data);
          patched ← match fields' !! "recipe" with
                    | Some recipe_value =>
                        set_recipe (json_dumps recipe_value) titled
                    | None => mret titled
                    end;
          try_except
            (updated ← update patched;
             shown ← long updated;
             mret (JObj {[ "success" := JBool true; "drinks" := shown ]}, 200))
            (abort 422)
    end.

(** [drop_drink(id)], lines 147-161. *)
Definition drop_drink : view Db :=
  fun args kwargs req =>
    id ← lift (one_parameter "id" args kwargs);
    found ← query_get id;
    match found with
    | None => abort 404
    | Some my_drink =>
        if negb (drink_is_true my_drink) then abort 404
        else
          try_except
            (_ ← delete my_drink;
             mret (JObj {[ "success" := JBool true; "delete" := id ]}, 200))
            (abort 422)
    end.

End Handlers.

(** The routes that [@requires_auth] guards, lines 54-55, 77-78, 112-113
    and 147-148: the permission and the view behind it. *)
Definition protected_routes {Db Drink} `{DrinkModel Db Drink}
           (get_json : request -> py_exception + json)
           (json_dumps : json -> string) : list (string * view Db) :=
  [("get:drinks-detail", drinks_detail);
   ("post:drinks", new_drink get_json json_dumps);
   ("patch:drinks", edit_drink get_json json_dumps);
   ("delete:drinks", drop_drink)].

End Views.

Export Views.

(** ** More vocabulary, and a small table to run the views on *)

Module Tables.

(** The first of [fields] that the dictionary [m] lacks. *)
Fixpoint first_missing (m : gmap string json) (fields : list string)
  : option string :=
  match fields with
  | [] => None
  | field :: rest =>
      match m !! field with
      | None => Some field
      | Some _ => first_missing m rest
      end
  end.

(** The codes of the [AuthError] taxonomy. *)
Definition auth_codes : list string :=
  ["authorization_header_missing"; "invalid_header"; "token_expired";
   "invalid_claims"; "missing_permissions"; "not_authorized"].

(** The codes [api.py] registers a handler for. *)
Definition abort_codes : list Z := [400; 404; 422].

Record toy_drink := mkToy {
  toy_id : Z;
  toy_title : string;
  toy_recipe : string
}.

Definition toy_show (with_recipe : bool) (x : toy_drink) : json :=
  if with_recipe then
    JObj {[ "id" := JNum (toy_id x); "title" := JStr (toy_title x);
            "recipe" := JStr (toy_recipe x) ]}
  else
    JObj {[ "id" := JNum (toy_id x); "title" := JStr (toy_title x) ]}.

(** A table kept as a list; a second drink with a title already there is
    refused, as a unique column would. *)
#[export] Instance toy_model : DrinkModel (list toy_drink) toy_drink := {|
  query_all := fun d => (Return d, d);
  query_get := fun id d =>
    (Return match id with
            | JNum n => find (fun x => (toy_id x =? n)%Z) d
            | _ => None
            end, d);
  new_drink_object := fun title recipe d =>
    (Return {| toy_id := 0;
               toy_title := match title with JStr s => s | _ => "" end;
               toy_recipe := recipe |}, d);
  set_title := fun title x d =>
    (Return {| toy_id := toy_id x;
               toy_title := match title with JStr s => s | _ => "" end;
               toy_recipe := toy_recipe x |}, d);
  set_recipe := fun recipe x d =>
    (Return {| toy_id := toy_id x; toy_title := toy_title x;
               toy_recipe := recipe |}, d);
  insert := fun x d =>
    if existsb (fun y => String.eqb (toy_title y) (toy_title x)) d
    then (Raise (PyErr (OtherException "IntegrityError")), d)
    else
      let x' := {| toy_id := 1 + Z.of_nat (List.length d);
                   toy_title := toy_title x; toy_recipe := toy_recipe x |} in
      (Return x', d ++ [x']);
  update := fun x d =>
    (Return x, map (fun y => if (toy_id y =? toy_id x)%Z then x else y) d);
  delete := fun x d =>
    (Return tt, List.filter (fun y => negb (toy_id y =? toy_id x)%Z) d);
  short := fun x d => (Return (toy_show false x), d);
  long := fun x d => (Return (toy_show true x), d);
  drink_is_true := fun _ => true
|}.

Definition mocha : toy_drink :=
  {| toy_id := 1; toy_title := "mocha"; toy_recipe := "[]" |}.

Definition toy_table : list toy_drink := [mocha].

(** A request whose body decodes to [data]. *)
Definition body_json (data : json) : request -> py_exception + json :=
  fun _ => inr data.

Definition toy_dumps (v : json) : string :=
  match v with
  | JStr s => s
  | _ => "[]"
  end.

(** Key-set documents that are not what the issuer promises. *)
Definition jwks_without_keys : json := JObj {[ "key" := JArr [] ]}.

Definition jwks_broken_entry : json :=
  JObj {[ "keys" := JArr [key_entry "k0" "other";
                          JObj {[ "kty" := JStr "RSA" ]};
                          key_entry "k1" "last"] ]}.

Definition key_without_use : gmap string json :=
  {[ "kty" := JStr "RSA"; "kid" := JStr "k1"; "n" := JStr "last";
     "e" := JStr "AQAB" ]}.

Definition jwks_incomplete_key : json :=
  JObj {[ "keys" := JArr [key_entry "k0" "other"; JObj key_without_use] ]}.

Definition loads (document : json) : string -> py_exception + json :=
  fun _ => inr document.

Definition unreadable_header : string -> py_exception + gmap string json :=
  fun _ => inl JWTError.

End Tables.

Export Tables.

(** * Properties *)

(** ** Splitting and lower-casing *)

Lemma split_not_nil sep s : split sep s <> [].
Proof.
  destruct s as [|c rest]; simpl; [discriminate|].
  destruct (Ascii.eqb c sep); [discriminate|].
  destruct (split sep rest); discriminate.
Qed.

Lemma join_split sep s : join sep (split sep s) = s.
Proof.
  induction s as [|c rest IH]; simpl; [reflexivity|].
  pose proof (split_not_nil sep rest) as Hne.
  destruct (Ascii.eqb c sep) eqn:Hc.
  - apply Ascii.eqb_eq in Hc; subst c.
    destruct (split sep rest) as [|p ps]; [contradiction|].
    change (join sep (EmptyString :: p :: ps))
      with (EmptyString +:+ String sep (join sep (p :: ps))).
    rewrite IH. reflexivity.
  - destruct (split sep rest) as [|p ps]; [contradiction|].
    destruct ps as [|q qs]; simpl in *; rewrite <- IH; reflexivity.
Qed.

Lemma split_parts_clean sep s :
  Forall (fun part => has_char sep part = false) (split sep s).
Proof.
  induction s as [|c rest IH]; simpl.
  - repeat constructor.
  - destruct (Ascii.eqb c sep) eqn:Hc.
    + constructor; [reflexivity | exact IH].
    + destruct (split sep rest) as [|p ps].
      * constructor; [simpl; rewrite Hc; reflexivity | constructor].
      * inversion IH; subst. constructor; [|assumption].
        simpl. rewrite Hc. assumption.
Qed.

Lemma split_clean sep s : has_char sep s = false -> split sep s = [s].
Proof.
  induction s as [|c rest IH]; simpl; [reflexivity|].
  destruct (Ascii.eqb c sep); simpl; [discriminate|].
  intros H. rewrite (IH H). reflexivity.
Qed.

Lemma split_app sep a rest :
  has_char sep a = false ->
  split sep (a +:+ String sep rest) = a :: split sep rest.
Proof.
  induction a as [|c a IH]; simpl.
  - intros _. rewrite Ascii.eqb_refl. reflexivity.
  - destruct (Ascii.eqb c sep); simpl; [discriminate|].
    intros H. rewrite (IH H). reflexivity.
Qed.

Lemma split_two sep s a b :
  split sep s = [a; b] <->
  s = a +:+ String sep b /\ has_char sep a = false /\ has_char sep b = false.
Proof.
  split.
  - intros H. pose proof (join_split sep s) as Hj.
    pose proof (split_parts_clean sep s) as Hc.
    rewrite H in Hj, Hc. cbn [join] in Hj.
    inversion Hc as [|? ? Ha Hc']; subst. inversion Hc' as [|? ? Hb _]; subst.
    auto.
  - intros (-> & Ha & Hb).
    rewrite (split_app _ _ _ Ha), (split_clean _ _ Hb). reflexivity.
Qed.

Lemma lower_char_space c : lower_char c = space -> c = space.
Proof.
  destruct c as [[] [] [] [] [] [] [] []]; vm_compute;
    intros H; first [reflexivity | discriminate H].
Qed.

Lemma lower_has_space s : has_char space (lower s) = has_char space s.
Proof.
  induction s as [|c rest IH]; simpl; [reflexivity|].
  rewrite IH. f_equal.
  destruct (Ascii.eqb c space) eqn:Hc.
  - apply Ascii.eqb_eq in Hc. subst c. reflexivity.
  - apply Ascii.eqb_neq. intros H. apply lower_char_space in H.
    apply Ascii.eqb_neq in Hc. contradiction.
Qed.

Lemma bearer_has_no_space scheme :
  lower scheme = "bearer" -> has_char space scheme = false.
Proof.
  intros H. rewrite <- lower_has_space, H. reflexivity.
Qed.

(** The shape [<scheme> <token>] is what [value.split(' ')] recognises. *)
Lemma bearer_shape_split value token :
  bearer_shape value token <->
  exists scheme, split space value = [scheme; token] /\ lower scheme = "bearer".
Proof.
  split.
  - intros (scheme & Hv & Hl & Ht). exists scheme. split; [|exact Hl].
    apply split_two. auto using bearer_has_no_space.
  - intros (scheme & Hs & Hl). apply split_two in Hs as (Hv & _ & Ht).
    exists scheme. auto.
Qed.

(** ** The Token Extractor *)

Lemma get_token_auth_header_cases req :
  match headers req !! "Authorization" with
  | None => get_token_auth_header req = Raise (AuthErr header_missing)
  | Some value =>
      (exists token, bearer_shape value token
                     /\ get_token_auth_header req = Return token)
      \/ ((forall token, ~ bearer_shape value token)
          /\ get_token_auth_header req = Raise (AuthErr header_malformed))
  end.
Proof.
  unfold get_token_auth_header.
  destruct (headers req !! "Authorization") as [value|]; [|reflexivity].
  cbv zeta.
  destruct (split space value) as [|a [|b [|c rest]]] eqn:Hs; simpl.
  - right. split; [|reflexivity].
    intros token Hb. apply bearer_shape_split in Hb as (? & Hb & _). congruence.
  - right. split; [|reflexivity].
    intros token Hb. apply bearer_shape_split in Hb as (? & Hb & _). congruence.
  - destruct (String.eqb (lower a) "bearer") eqn:Hl; simpl.
    + left. exists b. split; [|reflexivity].
      apply bearer_shape_split. exists a. apply String.eqb_eq in Hl. auto.
    + right. split; [|reflexivity].
      intros token Hb. apply bearer_shape_split in Hb as (s & Hb & Hl').
      apply String.eqb_neq in Hl. congruence.
  - right. split; [|reflexivity].
    intros token Hb. apply bearer_shape_split in Hb as (? & Hb & _). congruence.
Qed.

Lemma bearer_shape_functional value token token' :
  bearer_shape value token -> bearer_shape value token' -> token = token'.
Proof.
  intros H H'. apply bearer_shape_split in H as (s & H & _).
  apply bearer_shape_split in H' as (s' & H' & _). congruence.
Qed.

(** C3, as the code has it.  Without an [Authorization] entry the
    extractor raises [authorization_header_missing] with status 401.
    Otherwise the value is cut at every single space character
    ([split(' ')], not a split on whitespace): the extractor returns the
    token exactly when the value is a scheme that lower-cases to "bearer",
    one space, and a token without a space, which is when the cut gives
    exactly two parts; every other value raises [invalid_header] with
    status 401.  The token is returned as it stands. *)
Theorem get_token_auth_header_cuts_at_spaces (req : request) :
  (headers req !! "Authorization" = None ->
   get_token_auth_header req = Raise (AuthErr header_missing)
   /\ has_code header_missing "authorization_header_missing"
   /\ status_code header_missing = 401)
  /\ (forall value, headers req !! "Authorization" = Some value ->
        (forall token,
            bearer_shape value token <->
            exists scheme, split space value = [scheme; token]
                           /\ lower scheme = "bearer")
        /\ (forall token,
              bearer_shape value token ->
              get_token_auth_header req = Return token)
        /\ ((forall token, ~ bearer_shape value token) ->
            get_token_auth_header req = Raise (AuthErr header_malformed)
            /\ has_code header_malformed "invalid_header"
            /\ status_code header_malformed = 401)).
Proof.
  pose proof (get_token_auth_header_cases req) as Hc.
  split.
  - intros Hn. rewrite Hn in Hc. repeat split; assumption.
  - intros value Hv. rewrite Hv in Hc. split; [|split].
    + intros token. apply bearer_shape_split.
    + intros token Hb. destruct Hc as [(t & Hb' & Hr) | (Hno & _)].
      * rewrite Hr. f_equal. eapply bearer_shape_functional; eassumption.
      * exfalso. exact (Hno token Hb).
    + intros Hno. destruct Hc as [(t & Hb' & _) | (_ & Hr)].
      * exfalso. exact (Hno t Hb').
      * repeat split; assumption.
Qed.

Lemma get_token_auth_header_cuts_at_spaces_witness :
  get_token_auth_header request_without_header = Raise (AuthErr header_missing)
  /\ get_token_auth_header (request_with "bEARER abc.def.ghi") = Return "abc.def.ghi"
  /\ get_token_auth_header (request_with "Bearer  abc") = Raise (AuthErr header_malformed).
Proof.
  split; [|split].
  - apply (proj1 (get_token_auth_header_cuts_at_spaces request_without_header)).
    reflexivity.
  - apply (proj2 (get_token_auth_header_cuts_at_spaces
                    (request_with "bEARER abc.def.ghi")) _ eq_refl).
    exists "bEARER". repeat split; reflexivity.
  - apply (proj2 (get_token_auth_header_cuts_at_spaces
                    (request_with "Bearer  abc")) _ eq_refl).
    intros token Hb. apply bearer_shape_split in Hb as (scheme & Hs & _).
    vm_compute in Hs. discriminate Hs.
Defined.

(** C3 as the specification words it fails on a tab: "Bearer<TAB>tok"
    splits on whitespace into exactly two tokens, the first of which is
    "Bearer", so the token "tok" is promised; the code cuts at spaces
    only, finds one part and raises [invalid_header]. *)
Lemma get_token_auth_header_rejects_tab :
  split_whitespace ("Bearer" +:+ String tab "tok") = ["Bearer"; "tok"]
  /\ split_at is_whitespace ("Bearer" +:+ String tab "tok") = ["Bearer"; "tok"]
  /\ lower "Bearer" = "bearer"
  /\ spec_get_token_auth_header (request_with ("Bearer" +:+ String tab "tok"))
     = Return "tok"
  /\ get_token_auth_header (request_with ("Bearer" +:+ String tab "tok"))
     = Raise (AuthErr header_malformed)
  /\ get_token_auth_header (request_with ("Bearer" +:+ String tab "tok"))
     <> spec_get_token_auth_header (request_with ("Bearer" +:+ String tab "tok")).
Proof.
  repeat split; try reflexivity. vm_compute. discriminate.
Qed.

(** ** The Permission Enforcer *)

Lemma py_eq_str x v : py_eq (JStr x) v = true <-> v = JStr x.
Proof.
  destruct v; simpl; try (split; [discriminate | congruence]).
  rewrite String.eqb_eq. split; congruence.
Qed.

Lemma contains_array x l :
  existsb (py_eq (JStr x)) l = true <-> In (JStr x) l.
Proof.
  rewrite existsb_exists. split.
  - intros (v & Hin & Heq). apply py_eq_str in Heq. subst v. exact Hin.
  - intros Hin. exists (JStr x). split; [exact Hin | apply py_eq_str; reflexivity].
Qed.

Lemma contains_array_false x l :
  ~ In (JStr x) l -> contains x (JArr l) = Return false.
Proof.
  intros Hn. simpl. f_equal. apply not_true_is_false.
  intros H. apply Hn, contains_array, H.
Qed.

Lemma check_permissions_absent permission payload :
  payload !! "permissions" = None ->
  check_permissions permission payload = (Raise (AuthErr permissions_missing), payload).
Proof. intros H. unfold check_permissions. rewrite H. reflexivity. Qed.

Lemma check_permissions_found permission payload permissions (found : bool) :
  payload !! "permissions" = Some permissions ->
  contains permission permissions = Return found ->
  check_permissions permission payload
  = (if found then Return true else Raise (AuthErr permission_not_found), payload).
Proof.
  intros H Hc. unfold check_permissions. rewrite H, Hc.
  destruct found; reflexivity.
Qed.

(** The payload comes back as it went in, whatever the result. *)
Lemma check_permissions_reads_only permission payload :
  (check_permissions permission payload).2 = payload.
Proof.
  unfold check_permissions.
  destruct (payload !! "permissions") as [c|]; [|reflexivity].
  destruct (contains permission c) as [[]|]; reflexivity.
Qed.

(** C6.  [check_permissions] raises [missing_permissions] (401) when the
    payload has no "permissions" key; when the key holds a collection it
    raises [not_authorized] (401) if the required string is not in it and
    returns [True] if it is, which for an array means being one of its
    elements; in every case the payload is left as it was. *)
Theorem check_permissions_classifies (permission : string) (payload : gmap string json) :
  (payload !! "permissions" = None ->
   check_permissions permission payload = (Raise (AuthErr permissions_missing), payload)
   /\ has_code permissions_missing "missing_permissions"
   /\ status_code permissions_missing = 401)
  /\ (forall l, payload !! "permissions" = Some (JArr l) ->
        (~ In (JStr permission) l ->
         check_permissions permission payload
         = (Raise (AuthErr permission_not_found), payload)
         /\ has_code permission_not_found "not_authorized"
         /\ status_code permission_not_found = 401)
        /\ (In (JStr permission) l ->
            check_permissions permission payload = (Return true, payload)))
  /\ (forall permissions,
        payload !! "permissions" = Some permissions ->
        (contains permission permissions = Return false ->
         check_permissions permission payload
         = (Raise (AuthErr permission_not_found), payload))
        /\ (contains permission permissions = Return true ->
            check_permissions permission payload = (Return true, payload)))
  /\ (check_permissions permission payload).2 = payload.
Proof.
  split; [|split; [|split]].
  - intros H. split; [apply check_permissions_absent; exact H|].
    split; reflexivity.
  - intros l H. split.
    + intros Hn. split; [|split; reflexivity].
      apply (check_permissions_found _ _ _ false H).
      apply contains_array_false. exact Hn.
    + intros Hin. apply (check_permissions_found _ _ _ true H).
      simpl. f_equal. apply contains_array. exact Hin.
  - intros c H. split; intros Hc.
    + apply (check_permissions_found _ _ _ false H Hc).
    + apply (check_permissions_found _ _ _ true H Hc).
  - apply check_permissions_reads_only.
Qed.

Lemma check_permissions_classifies_witness :
  check_permissions "post:drinks" payload_without_permissions
  = (Raise (AuthErr permissions_missing), payload_without_permissions)
  /\ check_permissions "post:drinks" payload_detail
     = (Raise (AuthErr permission_not_found), payload_detail)
  /\ check_permissions "get:drinks-detail" payload_detail
     = (Return true, payload_detail).
Proof.
  split; [|split].
  - apply (proj1 (check_permissions_classifies "post:drinks"
                    payload_without_permissions)).
    reflexivity.
  - refine (proj1 (proj1 (proj1 (proj2 (check_permissions_classifies "post:drinks"
              payload_detail)) [JStr "get:drinks-detail"] eq_refl) _)).
    simpl. intros [H|[]]. discriminate H.
  - refine (proj2 (proj1 (proj2 (check_permissions_classifies "get:drinks-detail"
              payload_detail)) [JStr "get:drinks-detail"] eq_refl) _).
    simpl. left. reflexivity.
Defined.

(** C7.  The empty permission string gets no special treatment: whenever
    the "permissions" collection does not contain the empty string,
    [check_permissions ""] raises [not_authorized] (401).  For an array
    that is every array without the element [""]. *)
Theorem check_permissions_empty_permission (payload : gmap string json) :
  (forall permissions,
      payload !! "permissions" = Some permissions ->
      contains "" permissions = Return false ->
      (check_permissions "" payload).1 = Raise (AuthErr permission_not_found)
      /\ has_code permission_not_found "not_authorized"
      /\ status_code permission_not_found = 401)
  /\ (forall l,
        payload !! "permissions" = Some (JArr l) ->
        ~ In (JStr "") l ->
        (check_permissions "" payload).1 = Raise (AuthErr permission_not_found)).
Proof.
  split.
  - intros c H Hc. rewrite (check_permissions_found _ _ _ false H Hc).
    repeat split.
  - intros l H Hn.
    rewrite (check_permissions_found _ _ _ false H (contains_array_false _ _ Hn)).
    reflexivity.
Qed.

Lemma check_permissions_empty_permission_witness :
  (check_permissions "" payload_detail).1 = Raise (AuthErr permission_not_found)
  /\ (check_permissions "" (<[ "permissions" := JArr [] ]> payload_detail)).1
     = Raise (AuthErr permission_not_found).
Proof.
  split.
  - refine (proj1 (proj1 (check_permissions_empty_permission payload_detail)
                     (JArr [JStr "get:drinks-detail"]) eq_refl eq_refl)).
  - refine (proj2 (check_permissions_empty_permission
                     (<[ "permissions" := JArr [] ]> payload_detail))
                  [] eq_refl _).
    simpl. intros [].
Defined.

(** ** The key scan *)

Lemma key_record_fields entry :
  key_record entry ->
  exists m kty kid use n e,
    entry = JObj m
    /\ m !! "kty" = Some kty /\ m !! "kid" = Some kid /\ m !! "use" = Some use
    /\ m !! "n" = Some n /\ m !! "e" = Some e.
Proof.
  intros (m & -> & Hf). unfold key_fields in Hf.
  repeat match goal with
         | H : Forall _ (_ :: _) |- _ =>
             let Hx := fresh "Hx" in
             apply Forall_cons in H as [[? Hx] H]
         end.
  eauto 12.
Qed.

Lemma build_rsa_key_record m kty kid use n e :
  m !! "kty" = Some kty -> m !! "kid" = Some kid -> m !! "use" = Some use ->
  m !! "n" = Some n -> m !! "e" = Some e ->
  build_rsa_key (JObj m)
  = Return {[ "kty" := kty; "kid" := kid; "use" := use; "n" := n; "e" := e ]}.
Proof.
  intros H1 H2 H3 H4 H5. unfold build_rsa_key, getitem.
  rewrite H1, H2, H3, H4, H5. reflexivity.
Qed.

(** The record built from an entry has the five fields of the entry and
    nothing else. *)
Lemma build_rsa_key_copies m :
  key_record (JObj m) ->
  exists rsa_key,
    build_rsa_key (JObj m) = Return rsa_key
    /\ rsa_key <> ∅
    /\ (forall field, In field key_fields -> rsa_key !! field = m !! field)
    /\ (forall field, ~ In field key_fields -> rsa_key !! field = None).
Proof.
  intros Hr. apply key_record_fields in Hr
    as (m' & kty & kid & use & n & e & Hm & H1 & H2 & H3 & H4 & H5).
  injection Hm as <-.
  eexists. split; [apply build_rsa_key_record; eassumption|].
  split; [apply insert_non_empty|]. split.
  - intros field Hin. simpl in Hin.
    destruct Hin as [<-|[<-|[<-|[<-|[<-|[]]]]]]; simplify_map_eq; reflexivity.
  - intros field Hn. simpl in Hn.
    repeat (rewrite lookup_insert_ne; [|intros <-; apply Hn; tauto]).
    apply lookup_singleton_ne. intros <-. apply Hn. tauto.
Qed.

Lemma scan_keys_app header_kid l1 l2 rsa_key :
  scan_keys header_kid (l1 ++ l2) rsa_key
  = (rsa_key' ← scan_keys header_kid l1 rsa_key; scan_keys header_kid l2 rsa_key').
Proof.
  revert rsa_key. induction l1 as [|key l1 IH]; intros rsa_key; simpl.
  - reflexivity.
  - destruct (scan_step header_kid rsa_key key) as [r|x]; simpl; [apply IH|reflexivity].
Qed.

Lemma scan_keys_differ header_kid entries rsa_key :
  Forall (kid_differs header_kid) entries ->
  scan_keys header_kid entries rsa_key = Return rsa_key.
Proof.
  induction 1 as [|entry entries (kid & Hg & Hne) _ IH]; simpl; [reflexivity|].
  unfold scan_step. rewrite Hg. simpl. rewrite Hne. simpl. exact IH.
Qed.

Lemma scan_keys_records header_kid entries rsa_key :
  Forall key_record entries ->
  exists rsa_key', scan_keys header_kid entries rsa_key = Return rsa_key'.
Proof.
  intros Hf. revert rsa_key.
  induction Hf as [|entry entries Hr _ IH]; intros rsa_key; simpl; [eauto|].
  pose proof Hr as (m & -> & _).
  destruct (build_rsa_key_copies m Hr) as (built & Hb & _).
  apply key_record_fields in Hr as (m' & ? & kid & ? & ? & ? & Hm & _ & Hk & _).
  injection Hm as <-.
  unfold scan_step, getitem. rewrite Hk. simpl.
  destruct (py_eq kid header_kid); [rewrite Hb|]; simpl; apply IH.
Qed.

(** What the scan returns is what it started with, or the record built
    from an entry whose kid matches. *)
Lemma scan_keys_result header_kid entries rsa_key rsa_key' :
  scan_keys header_kid entries rsa_key = Return rsa_key' ->
  rsa_key' = rsa_key
  \/ exists entry, In entry entries /\ kid_matches header_kid entry
                   /\ build_rsa_key entry = Return rsa_key'.
Proof.
  revert rsa_key. induction entries as [|entry entries IH]; intros rsa_key; simpl.
  - intros [= <-]. left. reflexivity.
  - unfold scan_step.
    destruct (getitem entry "kid") as [kid|x] eqn:Hg; simpl; [|discriminate].
    destruct (py_eq kid header_kid) eqn:He.
    + destruct (build_rsa_key entry) as [built|x] eqn:Hb; simpl; [|discriminate].
      intros Hs. apply IH in Hs as [->|(e & Hin & Hm & Hbe)].
      * right. exists entry. split; [left; reflexivity|]. split; [|exact Hb].
        exists kid. auto.
      * right. exists e. auto.
    + simpl. intros Hs. apply IH in Hs as [->|(e & Hin & Hm & Hbe)].
      * left. reflexivity.
      * right. exists e. auto.
Qed.

(** The last matching entry is the one that stays. *)
Lemma scan_keys_last_match header_kid pre m post rsa_key :
  Forall key_record pre ->
  key_record (JObj m) ->
  kid_matches header_kid (JObj m) ->
  Forall (kid_differs header_kid) post ->
  scan_keys header_kid (pre ++ JObj m :: post) rsa_key = build_rsa_key (JObj m).
Proof.
  intros Hpre Hr (kid & Hg & He) Hpost.
  rewrite scan_keys_app.
  destruct (scan_keys_records header_kid pre rsa_key Hpre) as (r & ->). simpl.
  destruct (build_rsa_key_copies m Hr) as (built & Hb & _).
  unfold scan_step. rewrite Hg. simpl. rewrite He, Hb. simpl.
  apply scan_keys_differ. exact Hpost.
Qed.

Lemma truthy_non_empty {V} (m : gmap string V) : m <> ∅ -> truthy m = true.
Proof.
  intros H. unfold truthy. apply bool_decide_eq_true.
  intros Hs. apply H. apply map_size_empty_iff. exact Hs.
Qed.

(** ** The Token Verifier *)

Section Verifier.

Variable urlopen_read : string -> py_exception + string.
Variable json_loads : string -> py_exception + json.
Variable get_unverified_header : string -> py_exception + gmap string json.
Variable jwt_decode :
  string -> gmap string json -> list string -> string -> string ->
  py_exception + gmap string json.

Abbreviation verify :=
  (verify_decode_jwt urlopen_read json_loads get_unverified_header jwt_decode).
Abbreviation decode := (decode_and_classify jwt_decode).
Abbreviation was_fetched :=
  (fetched urlopen_read json_loads get_unverified_header).
Abbreviation located :=
  (key_located urlopen_read json_loads get_unverified_header).

Lemma verify_after_fetch token jwks header :
  was_fetched token jwks header ->
  verify token =
  match header !! "kid" with
  | None => Raise (AuthErr kid_missing)
  | Some header_kid =>
      keys ← getitem jwks "keys";
      entries ← iter keys;
      rsa_key ← scan_keys header_kid entries ∅;
      if truthy rsa_key then decode token rsa_key
      else Raise (AuthErr key_not_found)
  end.
Proof.
  intros (text & Hu & Hj & Hh). unfold verify_decode_jwt.
  rewrite Hu. simpl. rewrite Hj. simpl. rewrite Hh. reflexivity.
Qed.

Lemma verify_with_key token rsa_key :
  located token rsa_key -> verify token = decode token rsa_key.
Proof.
  intros (jwks & header & header_kid & keys & entries
          & Hf & Hk & Hg & Hi & Hs & Hne).
  rewrite (verify_after_fetch _ _ _ Hf), Hk, Hg. simpl.
  rewrite Hi. simpl. rewrite Hs. simpl.
  rewrite (truthy_non_empty _ Hne). reflexivity.
Qed.

(** C4.  Once the key set is fetched and the token's header read:
    a header without "kid" makes [verify_decode_jwt] raise
    [invalid_header] (401); a key set none of whose entries has the
    header's kid makes it raise [invalid_header] (401) with the
    description "Unable to find appropriate key"; neither case returns a
    claim set. *)
Theorem verify_decode_jwt_rejects_unknown_kid
        (token : string) (jwks : json) (header : gmap string json) :
  was_fetched token jwks header ->
  (header !! "kid" = None ->
   verify token = Raise (AuthErr kid_missing)
   /\ has_code kid_missing "invalid_header"
   /\ status_code kid_missing = 401
   /\ forall payload, verify token <> Return payload)
  /\ (forall header_kid entries,
        header !! "kid" = Some header_kid ->
        getitem jwks "keys" = Return (JArr entries) ->
        Forall (kid_differs header_kid) entries ->
        verify token = Raise (AuthErr key_not_found)
        /\ has_code key_not_found "invalid_header"
        /\ status_code key_not_found = 401
        /\ error key_not_found !! "description"
           = Some "Unable to find appropriate key"
        /\ forall payload, verify token <> Return payload).
Proof.
  intros Hf. pose proof (verify_after_fetch _ _ _ Hf) as Hv. split.
  - intros Hk. rewrite Hk in Hv. rewrite Hv.
    repeat split; discriminate.
  - intros header_kid entries Hk Hg Hd. rewrite Hk, Hg in Hv. simpl in Hv.
    rewrite (scan_keys_differ _ _ _ Hd) in Hv. simpl in Hv. rewrite Hv.
    repeat split; discriminate.
Qed.

(** C5.  With a matching key located, the outcome of [jwt.decode] is
    sorted as follows: the payload is returned when decoding succeeds; an
    expired signature raises [token_expired], a claims error
    [invalid_claims], and every other exception [invalid_header], each
    with status 401. *)
Theorem verify_decode_jwt_classifies_decode_failures
        (token : string) (rsa_key : gmap string json) :
  located token rsa_key ->
  (forall payload,
      jwt_decode token rsa_key ALGORITHMS API_AUDIENCE issuer = inr payload ->
      verify token = Return payload)
  /\ (jwt_decode token rsa_key ALGORITHMS API_AUDIENCE issuer
      = inl ExpiredSignatureError ->
      verify token = Raise (AuthErr token_expired)
      /\ has_code token_expired "token_expired"
      /\ status_code token_expired = 401)
  /\ (jwt_decode token rsa_key ALGORITHMS API_AUDIENCE issuer
      = inl JWTClaimsError ->
      verify token = Raise (AuthErr claims_invalid)
      /\ has_code claims_invalid "invalid_claims"
      /\ status_code claims_invalid = 401)
  /\ (forall x,
        jwt_decode token rsa_key ALGORITHMS API_AUDIENCE issuer = inl x ->
        x <> ExpiredSignatureError ->
        x <> JWTClaimsError ->
        is_Exception x = true ->
        verify token = Raise (AuthErr token_unparsable)
        /\ has_code token_unparsable "invalid_header"
        /\ status_code token_unparsable = 401).
Proof.
  intros Hl. rewrite (verify_with_key _ _ Hl). unfold decode_and_classify.
  split; [|split; [|split]].
  - intros payload ->. reflexivity.
  - intros ->. repeat split.
  - intros ->. repeat split.
  - intros x -> H1 H2 H3.
    destruct x; try contradiction; try discriminate; repeat split.
Qed.

(** C10.  When the key set is an array of key records and the last
    entry whose kid equals the header's kid is [JObj m], whatever
    matched before it, the key handed to [jwt.decode] is the record with
    exactly the fields kty, kid, use, n and e of [m]. *)
Theorem verify_decode_jwt_last_match_wins
        (token : string) (jwks : json) (header : gmap string json)
        (header_kid : json) (pre : list json) (m : gmap string json)
        (post : list json) :
  was_fetched token jwks header ->
  header !! "kid" = Some header_kid ->
  getitem jwks "keys" = Return (JArr (pre ++ JObj m :: post)) ->
  Forall key_record pre ->
  key_record (JObj m) ->
  kid_matches header_kid (JObj m) ->
  Forall (kid_differs header_kid) post ->
  exists rsa_key,
    scan_keys header_kid (pre ++ JObj m :: post) ∅ = Return rsa_key
    /\ (forall field, In field key_fields -> rsa_key !! field = m !! field)
    /\ (forall field, ~ In field key_fields -> rsa_key !! field = None)
    /\ verify token = decode token rsa_key.
Proof.
  intros Hf Hk Hg Hpre Hr Hm Hpost.
  destruct (build_rsa_key_copies m Hr) as (rsa_key & Hb & Hne & Hin & Hout).
  exists rsa_key.
  assert (Hs : scan_keys header_kid (pre ++ JObj m :: post) ∅ = Return rsa_key)
    by (rewrite scan_keys_last_match; assumption).
  repeat split; try assumption.
  apply verify_with_key.
  exists jwks, header, header_kid, (JArr (pre ++ JObj m :: post)%list),
    (pre ++ JObj m :: post)%list.
  repeat split; assumption.
Qed.

End Verifier.

(** ** What the auth core can raise *)

Lemma getitem_raises d k x : getitem d k = Raise x -> exists p, x = PyErr p.
Proof.
  destruct d; simpl; try (intros [= <-]; eauto).
  destruct (m !! k); [discriminate | intros [= <-]; eauto].
Qed.

Lemma iter_raises d x : iter d = Raise x -> exists p, x = PyErr p.
Proof. destruct d; simpl; try discriminate; intros [= <-]; eauto. Qed.

Lemma contains_raises s d x : contains s d = Raise x -> exists p, x = PyErr p.
Proof. destruct d; simpl; try discriminate; intros [= <-]; eauto. Qed.

Ltac subscript key field :=
  let H := fresh "Hg" in
  destruct (getitem key field) eqn:H; simpl;
  [|let Hx := fresh in
    intros [= Hx]; subst; eapply getitem_raises; eassumption].

Lemma build_rsa_key_raises key x :
  build_rsa_key key = Raise x -> exists p, x = PyErr p.
Proof.
  unfold build_rsa_key.
  subscript key "kty". subscript key "kid". subscript key "use".
  subscript key "n". subscript key "e".
  unfold mret, outcome_ret. discriminate.
Qed.

Lemma scan_keys_raises header_kid entries rsa_key x :
  scan_keys header_kid entries rsa_key = Raise x -> exists p, x = PyErr p.
Proof.
  revert rsa_key. induction entries as [|entry entries IH]; intros rsa_key; simpl.
  - discriminate.
  - unfold scan_step.
    destruct (getitem entry "kid") as [kid|y] eqn:Hg; simpl;
      [|intros [= Hx]; subst x; eapply getitem_raises; eassumption].
    destruct (py_eq kid header_kid).
    + destruct (build_rsa_key entry) as [built|y] eqn:Hb; simpl;
        [apply IH | intros [= Hx]; subst x; eapply build_rsa_key_raises; eassumption].
    + simpl. apply IH.
Qed.

Lemma get_token_auth_header_raises req e :
  get_token_auth_header req = Raise (AuthErr e) ->
  e = header_missing \/ e = header_malformed.
Proof.
  pose proof (get_token_auth_header_cases req) as Hc.
  destruct (headers req !! "Authorization").
  - destruct Hc as [(t & _ & ->) | (_ & ->)]; [discriminate|].
    intros [= <-]. auto.
  - rewrite Hc. intros [= <-]. auto.
Qed.

Lemma check_permissions_raises permission payload e :
  (check_permissions permission payload).1 = Raise (AuthErr e) ->
  e = permissions_missing \/ e = permission_not_found.
Proof.
  unfold check_permissions.
  destruct (payload !! "permissions") as [c|]; simpl; [|intros [= <-]; auto].
  destruct (contains permission c) as [[]|x] eqn:Hc; simpl.
  - discriminate.
  - intros [= <-]. auto.
  - intros [= ->]. apply contains_raises in Hc as (p & Hp). discriminate Hp.
Qed.

Lemma check_permissions_returns permission payload b :
  (check_permissions permission payload).1 = Return b -> b = true.
Proof.
  unfold check_permissions.
  destruct (payload !! "permissions") as [c|]; simpl; [|discriminate].
  destruct (contains permission c) as [[]|x]; simpl; congruence.
Qed.

Section Raised.

Variable urlopen_read : string -> py_exception + string.
Variable json_loads : string -> py_exception + json.
Variable get_unverified_header : string -> py_exception + gmap string json.
Variable jwt_decode :
  string -> gmap string json -> list string -> string -> string ->
  py_exception + gmap string json.

Lemma decode_and_classify_raises token rsa_key e :
  decode_and_classify jwt_decode token rsa_key = Raise (AuthErr e) ->
  e = token_expired \/ e = claims_invalid \/ e = token_unparsable.
Proof.
  unfold decode_and_classify.
  destruct (jwt_decode _ _ _ _ _) as [[]|]; simpl;
    first [discriminate | intros [= <-]; auto].
Qed.

Lemma verify_decode_jwt_raises token e :
  verify_decode_jwt urlopen_read json_loads get_unverified_header jwt_decode token
  = Raise (AuthErr e) ->
  e = kid_missing \/ e = key_not_found \/ e = token_expired
  \/ e = claims_invalid \/ e = token_unparsable.
Proof.
  unfold verify_decode_jwt.
  destruct (urlopen_read jwks_url) as [|text]; simpl; [discriminate|].
  destruct (json_loads text) as [|jwks]; simpl; [discriminate|].
  destruct (get_unverified_header token) as [|header]; simpl; [discriminate|].
  destruct (header !! "kid") as [header_kid|]; [|intros [= <-]; auto].
  destruct (getitem jwks "keys") as [keys|x] eqn:Hg; simpl;
    [|intros [= ->]; apply getitem_raises in Hg as (? & ?); discriminate].
  destruct (iter keys) as [entries|x] eqn:Hi; simpl;
    [|intros [= ->]; apply iter_raises in Hi as (? & ?); discriminate].
  destruct (scan_keys header_kid entries ∅) as [rsa_key|x] eqn:Hs; simpl;
    [|intros [= ->]; apply scan_keys_raises in Hs as (? & ?); discriminate].
  destruct (truthy rsa_key).
  - intros H. apply decode_and_classify_raises in H. tauto.
  - intros [= <-]. auto.
Qed.

Lemma auth_core_raises_listed e :
  auth_core_raises urlopen_read json_loads get_unverified_header jwt_decode e ->
  In e auth_errors.
Proof.
  unfold auth_errors.
  intros [(req & H) | [(token & H) | (permission & payload & H)]].
  - apply get_token_auth_header_raises in H.
    repeat destruct H as [H|H]; subst e; simpl; auto 12.
  - apply verify_decode_jwt_raises in H.
    repeat destruct H as [H|H]; subst e; simpl; auto 12.
  - apply check_permissions_raises in H.
    repeat destruct H as [H|H]; subst e; simpl; auto 12.
Qed.

(** C9.  Every [AuthError] the auth core raises has a description, and
    the boundary handler answers it with the body
    [{"success": false, "error": status_code, "message": description}]
    and the HTTP status [status_code]. *)
Theorem auth_error_renders_every_auth_error (e : AuthError) :
  auth_core_raises urlopen_read json_loads get_unverified_header jwt_decode e ->
  exists description,
    error e !! "description" = Some description
    /\ errorhandler (AuthErr e)
       = Return (JObj {[ "success" := JBool false;
                         "error" := JNum (status_code e);
                         "message" := JStr description ]},
                 status_code e).
Proof.
  intros H. apply auth_core_raises_listed in H. unfold auth_errors in H.
  simpl in H.
  repeat (destruct H as [<- | H]; [eexists; split; reflexivity|]).
  contradiction.
Qed.

End Raised.

Lemma auth_error_renders_every_auth_error_witness :
  errorhandler (AuthErr header_missing)
  = Return (JObj {[ "success" := JBool false; "error" := JNum 401;
                    "message" := JStr "Authorization header is expected" ]}, 401).
Proof.
  destruct (auth_error_renders_every_auth_error net_up loads_two_matches
              (read_header header_k1) (decode_to (inr payload_detail))
              header_missing) as (description & Hd & Hr).
  - left. exists request_without_header. reflexivity.
  - injection Hd as <-. exact Hr.
Defined.

(** ** The Auth Gate *)

Section Gate.

Context {Db : Type}.
Variable urlopen_read : string -> py_exception + string.
Variable json_loads : string -> py_exception + json.
Variable get_unverified_header : string -> py_exception + gmap string json.
Variable jwt_decode :
  string -> gmap string json -> list string -> string -> string ->
  py_exception + gmap string json.

Abbreviation guarded :=
  (requires_auth urlopen_read json_loads get_unverified_header jwt_decode).
Abbreviation raises :=
  (stage_raises urlopen_read json_loads get_unverified_header jwt_decode).
Abbreviation pass :=
  (stages_pass urlopen_read json_loads get_unverified_header jwt_decode).

Lemma requires_auth_stops (permission : string) (f : view Db) args kwargs req w x :
  raises permission req x ->
  guarded permission f args kwargs req w = (Raise x, w).
Proof.
  unfold requires_auth, gate_bind, pure_step.
  intros [H | [(token & Ht & H) | (token & payload & Ht & Hp & H)]].
  - rewrite H. reflexivity.
  - rewrite Ht, H. reflexivity.
  - rewrite Ht, Hp, H. reflexivity.
Qed.

Lemma requires_auth_proceeds (permission : string) (f : view Db) args kwargs req w
      payload :
  pass permission req payload ->
  guarded permission f args kwargs req w = call_view f args kwargs req w.
Proof.
  unfold requires_auth, gate_bind, pure_step.
  intros (token & Ht & Hp & Hc). rewrite Ht, Hp, Hc. reflexivity.
Qed.

(** Either a stage raises and the world is untouched, or all stages
    pass and the wrapper is the call of the view. *)
Lemma requires_auth_dichotomy (permission : string) (req : request) :
  (exists x, raises permission req x)
  \/ (exists payload, pass permission req payload).
Proof.
  unfold stage_raises, stages_pass.
  destruct (get_token_auth_header req) as [token|x] eqn:Ht; [|eauto].
  destruct (verify_decode_jwt urlopen_read json_loads get_unverified_header
              jwt_decode token) as [payload|x] eqn:Hp; [|eauto 7].
  destruct (check_permissions permission payload).1 as [b|x] eqn:Hc; [|eauto 9].
  pose proof (check_permissions_returns _ _ _ Hc) as ->.
  right. eauto.
Qed.

Lemma call_view_logs (f : view Db) args kwargs req w :
  invocations (call_view f args kwargs req w).2
  = invocations w ++ [(args, kwargs)].
Proof.
  unfold call_view. destruct (f args kwargs req (db w)). reflexivity.
Qed.

(** When the stages pass the view is called exactly once, with the
    arguments of the wrapper and nothing else. *)
Lemma requires_auth_calls_once (permission : string) (f : view Db) args kwargs req w
      payload :
  pass permission req payload ->
  invocations (guarded permission f args kwargs req w).2
  = invocations w ++ [(args, kwargs)].
Proof.
  intros H. rewrite (requires_auth_proceeds _ _ _ _ _ _ _ H).
  apply call_view_logs.
Qed.

(** C1.  If one of the three stages raises an [AuthError], the wrapper
    raises that same error with the world as it was (no call of the view
    is logged, the table is untouched) and the boundary answers with
    [auth_error] of it; and a call of the view is logged only if all
    three stages passed. *)
Theorem requires_auth_short_circuits
        (permission : string) (f : view Db) (args : list json)
        (kwargs : gmap string json) (req : request) (w : world Db) :
  (forall e, raises permission req (AuthErr e) ->
     guarded permission f args kwargs req w = (Raise (AuthErr e), w)
     /\ dispatch (guarded permission f) args kwargs req w = (auth_error e, w))
  /\ (invocations (guarded permission f args kwargs req w).2 <> invocations w ->
      exists payload, pass permission req payload).
Proof.
  split.
  - intros e H. pose proof (requires_auth_stops permission f args kwargs req w _ H) as Hs.
    split; [exact Hs|]. unfold dispatch. rewrite Hs. reflexivity.
  - intros Hlog. destruct (requires_auth_dichotomy permission req) as [(x & H)|H].
    + rewrite (requires_auth_stops permission f args kwargs req w _ H) in Hlog.
      contradiction.
    + exact H.
Qed.

(** C8, as the code has it.  A failure of the fetch, or of the parse of
    what was fetched, leaves [verify_decode_jwt] as the exception the
    library raised: nothing catches it and nothing turns it into an
    [AuthError]; neither the token's header nor [jwt.decode] is consulted,
    so no key set, empty or not, is ever scanned; and the gate passes the
    exception on without calling the view. *)
Theorem verify_decode_jwt_fetch_failure_propagates (token : string) :
  (forall x,
      urlopen_read jwks_url = inl x ->
      verify_decode_jwt urlopen_read json_loads get_unverified_header
        jwt_decode token = Raise (PyErr x)
      /\ (forall e, verify_decode_jwt urlopen_read json_loads
                      get_unverified_header jwt_decode token
                    <> Raise (AuthErr e))
      /\ (forall permission (f : view Db) args kwargs req w,
            get_token_auth_header req = Return token ->
            guarded permission f args kwargs req w = (Raise (PyErr x), w)))
  /\ (forall text x,
        urlopen_read jwks_url = inr text ->
        json_loads text = inl x ->
        verify_decode_jwt urlopen_read json_loads get_unverified_header
          jwt_decode token = Raise (PyErr x)
        /\ (forall e, verify_decode_jwt urlopen_read json_loads
                        get_unverified_header jwt_decode token
                      <> Raise (AuthErr e))
        /\ (forall permission (f : view Db) args kwargs req w,
              get_token_auth_header req = Return token ->
              guarded permission f args kwargs req w = (Raise (PyErr x), w))).
Proof.
  split.
  - intros x Hu.
    assert (Hv : verify_decode_jwt urlopen_read json_loads get_unverified_header
                   jwt_decode token = Raise (PyErr x))
      by (unfold verify_decode_jwt; rewrite Hu; reflexivity).
    rewrite Hv. split; [reflexivity|]. split; [discriminate|].
    intros permission f args kwargs req w Ht.
    apply requires_auth_stops. right. left. eauto.
  - intros text x Hu Hj.
    assert (Hv : verify_decode_jwt urlopen_read json_loads get_unverified_header
                   jwt_decode token = Raise (PyErr x))
      by (unfold verify_decode_jwt; rewrite Hu; simpl; rewrite Hj; reflexivity).
    rewrite Hv. split; [reflexivity|]. split; [discriminate|].
    intros permission f args kwargs req w Ht.
    apply requires_auth_stops. right. left. eauto.
Qed.

End Gate.

Lemma requires_auth_short_circuits_witness :
  requires_auth net_up loads_two_matches (read_header header_k1)
    (decode_to (inr payload_detail)) "post:drinks" echo_view [] ∅
    (request_with "Bearer tok") fresh_world
  = (Raise (AuthErr permission_not_found), fresh_world)
  /\ dispatch (requires_auth net_up loads_two_matches (read_header header_k1)
                 (decode_to (inr payload_detail)) "post:drinks" echo_view)
       [] ∅ (request_with "Bearer tok") fresh_world
     = (Return (JObj {[ "success" := JBool false; "error" := JNum 401;
                        "message" :=
                          JStr "needed permission not found in permissions" ]},
                401), fresh_world).
Proof.
  apply (proj1 (requires_auth_short_circuits net_up loads_two_matches
                  (read_header header_k1) (decode_to (inr payload_detail))
                  "post:drinks" echo_view [] ∅ (request_with "Bearer tok")
                  fresh_world)).
  right. right. exists "tok", payload_detail. repeat split; reflexivity.
Defined.

(** C2 on the code: the view is called once, but the decoded payload is
    not passed on.  A view that answers with its positional arguments
    answers [[]] under the wrapper of the code, and [[payload]] under the
    wrapper the docstring describes. *)
Theorem requires_auth_withholds_payload :
  requires_auth net_up loads_two_matches (read_header header_k1)
    (decode_to (inr payload_detail)) "get:drinks-detail" echo_view [] ∅
    (request_with "Bearer tok") fresh_world
  = (Return (JArr [], 200), {| db := tt; invocations := [([], ∅)] |})
  /\ documented_requires_auth net_up loads_two_matches (read_header header_k1)
       (decode_to (inr payload_detail)) "get:drinks-detail" echo_view [] ∅
       (request_with "Bearer tok") fresh_world
     = (Return (JArr [JObj payload_detail], 200),
        {| db := tt; invocations := [([JObj payload_detail], ∅)] |}).
Proof.
  split; vm_compute; reflexivity.
Qed.

(** ** The statements at concrete requests *)

Lemma fetched_fixture header :
  fetched net_up loads_two_matches (read_header header) "tok"
    jwks_two_matches header.
Proof. exists "{...}". repeat split; reflexivity. Qed.

Lemma key_record_fixture kid n : key_record (key_entry kid n).
Proof.
  exists (key_map kid n). split; [reflexivity|].
  repeat constructor; eexists; reflexivity.
Qed.

Lemma key_located_fixture :
  key_located net_up loads_two_matches (read_header header_k1) "tok" rsa_key_last.
Proof.
  exists jwks_two_matches, header_k1, (JStr "k1"),
    (JArr [key_entry "k1" "first"; key_entry "k0" "other"; key_entry "k1" "last"]),
    [key_entry "k1" "first"; key_entry "k0" "other"; key_entry "k1" "last"].
  split; [apply fetched_fixture|].
  repeat split; try reflexivity.
  apply insert_non_empty.
Qed.

Lemma verify_decode_jwt_rejects_unknown_kid_witness :
  verify_decode_jwt net_up loads_two_matches (read_header header_without_kid)
    (decode_to (inr payload_detail)) "tok"
  = Raise (AuthErr kid_missing)
  /\ verify_decode_jwt net_up loads_two_matches (read_header header_k9)
       (decode_to (inr payload_detail)) "tok"
     = Raise (AuthErr key_not_found).
Proof.
  split.
  - refine (proj1 (proj1 (verify_decode_jwt_rejects_unknown_kid net_up
              loads_two_matches (read_header header_without_kid)
              (decode_to (inr payload_detail)) "tok" jwks_two_matches
              header_without_kid (fetched_fixture _)) eq_refl)).
  - refine (proj1 (proj2 (verify_decode_jwt_rejects_unknown_kid net_up
              loads_two_matches (read_header header_k9)
              (decode_to (inr payload_detail)) "tok" jwks_two_matches
              header_k9 (fetched_fixture _)) (JStr "k9") _ eq_refl eq_refl _)).
    repeat constructor; eexists; split; reflexivity.
Defined.

Lemma verify_decode_jwt_classifies_decode_failures_witness :
  verify_decode_jwt net_up loads_two_matches (read_header header_k1)
    (decode_to (inl ExpiredSignatureError)) "tok"
  = Raise (AuthErr token_expired)
  /\ verify_decode_jwt net_up loads_two_matches (read_header header_k1)
       (decode_to (inl JWTClaimsError)) "tok"
     = Raise (AuthErr claims_invalid)
  /\ verify_decode_jwt net_up loads_two_matches (read_header header_k1)
       (decode_to (inl JWTError)) "tok"
     = Raise (AuthErr token_unparsable)
  /\ verify_decode_jwt net_up loads_two_matches (read_header header_k1)
       (decode_to (inr payload_detail)) "tok"
     = Return payload_detail.
Proof.
  split; [|split; [|split]].
  - refine (proj1 (proj1 (proj2 (verify_decode_jwt_classifies_decode_failures
              net_up loads_two_matches (read_header header_k1)
              (decode_to (inl ExpiredSignatureError)) "tok" rsa_key_last
              key_located_fixture)) eq_refl)).
  - refine (proj1 (proj1 (proj2 (proj2 (verify_decode_jwt_classifies_decode_failures
              net_up loads_two_matches (read_header header_k1)
              (decode_to (inl JWTClaimsError)) "tok" rsa_key_last
              key_located_fixture))) eq_refl)).
  - refine (proj1 (proj2 (proj2 (proj2 (verify_decode_jwt_classifies_decode_failures
              net_up loads_two_matches (read_header header_k1)
              (decode_to (inl JWTError)) "tok" rsa_key_last
              key_located_fixture))) JWTError eq_refl _ _ eq_refl));
      discriminate.
  - refine (proj1 (verify_decode_jwt_classifies_decode_failures
              net_up loads_two_matches (read_header header_k1)
              (decode_to (inr payload_detail)) "tok" rsa_key_last
              key_located_fixture) payload_detail eq_refl).
Defined.

Lemma verify_decode_jwt_last_match_wins_witness :
  exists rsa_key,
    scan_keys (JStr "k1")
      [key_entry "k1" "first"; key_entry "k0" "other"; key_entry "k1" "last"] ∅
    = Return rsa_key
    /\ rsa_key !! "n" = Some (JStr "last")
    /\ rsa_key !! "alg" = None.
Proof.
  destruct (verify_decode_jwt_last_match_wins net_up loads_two_matches
              (read_header header_k1) (decode_to (inr payload_detail)) "tok"
              jwks_two_matches header_k1 (JStr "k1")
              [key_entry "k1" "first"; key_entry "k0" "other"]
              (key_map "k1" "last") [])
    as (rsa_key & Hs & Hin & Hout & _).
  - apply fetched_fixture.
  - reflexivity.
  - reflexivity.
  - repeat constructor; apply key_record_fixture.
  - apply (key_record_fixture "k1" "last").
  - exists (JStr "k1"). split; reflexivity.
  - constructor.
  - exists rsa_key. split; [exact Hs|]. split.
    + rewrite Hin; [reflexivity | simpl; tauto].
    + apply Hout. simpl. intros [H|[H|[H|[H|[H|[]]]]]]; discriminate H.
Defined.

Lemma verify_decode_jwt_fetch_failure_propagates_witness :
  verify_decode_jwt net_down loads_two_matches (read_header header_k1)
    (decode_to (inr payload_detail)) "tok"
  = Raise (PyErr URLError)
  /\ verify_decode_jwt net_up loads_garbled (read_header header_k1)
       (decode_to (inr payload_detail)) "tok"
     = Raise (PyErr JSONDecodeError)
  /\ requires_auth net_down loads_two_matches (read_header header_k1)
       (decode_to (inr payload_detail)) "get:drinks-detail" echo_view [] ∅
       (request_with "Bearer tok") fresh_world
     = (Raise (PyErr URLError), fresh_world).
Proof.
  split; [|split].
  - refine (proj1 (proj1 (verify_decode_jwt_fetch_failure_propagates (Db:=unit)
              net_down loads_two_matches (read_header header_k1)
              (decode_to (inr payload_detail)) "tok") URLError eq_refl)).
  - refine (proj1 (proj2 (verify_decode_jwt_fetch_failure_propagates (Db:=unit)
              net_up loads_garbled (read_header header_k1)
              (decode_to (inr payload_detail)) "tok") "{...}" JSONDecodeError
              eq_refl eq_refl)).
  - refine (proj2 (proj2 (proj1 (verify_decode_jwt_fetch_failure_propagates
              net_down loads_two_matches (read_header header_k1)
              (decode_to (inr payload_detail)) "tok") URLError eq_refl))
              "get:drinks-detail" echo_view [] ∅ (request_with "Bearer tok")
              fresh_world eq_refl).
Defined.

(** C8 as the specification words it fails when the issuer cannot be
    reached: [urlopen] raises [URLError], which is what leaves
    [verify_decode_jwt]; it is no [AuthError], and the boundary has no
    handler that would render it. *)
Lemma verify_decode_jwt_fetch_failure_is_not_auth_error :
  net_down jwks_url = inl URLError
  /\ verify_decode_jwt net_down loads_two_matches (read_header header_k1)
       (decode_to (inr payload_detail)) "tok"
     = Raise (PyErr URLError)
  /\ ~ (exists e, verify_decode_jwt net_down loads_two_matches
                    (read_header header_k1) (decode_to (inr payload_detail)) "tok"
                  = Raise (AuthErr e))
  /\ dispatch (requires_auth net_down loads_two_matches (read_header header_k1)
                 (decode_to (inr payload_detail)) "get:drinks-detail" echo_view)
       [] ∅ (request_with "Bearer tok") fresh_world
     = (Raise (PyErr URLError), fresh_world).
Proof.
  repeat split; try reflexivity.
  intros (e & H). vm_compute in H. discriminate H.
Qed.

(** The first end-to-end scenario of the specification: a protected
    route called without a header. *)
Example drinks_detail_without_header :
  dispatch (requires_auth net_up loads_two_matches (read_header header_k1)
              (decode_to (inr payload_detail)) "get:drinks-detail" echo_view)
    [] ∅ request_without_header fresh_world
  = (Return (JObj {[ "success" := JBool false; "error" := JNum 401;
                     "message" := JStr "Authorization header is expected" ]},
             401), fresh_world).
Proof. reflexivity. Qed.

(** * Further properties of [auth.py] *)

(** ** What a returned token looks like *)

Lemma get_token_auth_header_inv req token :
  get_token_auth_header req = Return token ->
  exists value, headers req !! "Authorization" = Some value
                /\ bearer_shape value token.
Proof.
  intros Hr. pose proof (get_token_auth_header_cases req) as Hc.
  destruct (headers req !! "Authorization") as [value|].
  - exists value. split; [reflexivity|].
    destruct Hc as [(t & Hb & Ht) | (_ & Ht)]; rewrite Ht in Hr.
    + injection Hr as <-. exact Hb.
    + discriminate Hr.
  - rewrite Hc in Hr. discriminate Hr.
Qed.

(** X1.  A token that [get_token_auth_header] returns is what follows the
    one space of an [Authorization] value whose first part reads
    "bearer"; it contains no space (and may be empty).  When the function
    raises, it raises one of its two [AuthError]s, never an exception of
    Python's. *)
Theorem get_token_auth_header_sound (req : request) :
  (forall token,
      get_token_auth_header req = Return token ->
      has_char space token = false
      /\ exists value, headers req !! "Authorization" = Some value
                       /\ bearer_shape value token)
  /\ (forall x,
        get_token_auth_header req = Raise x ->
        x = AuthErr header_missing \/ x = AuthErr header_malformed).
Proof.
  split.
  - intros token Hr. destruct (get_token_auth_header_inv _ _ Hr) as (value & Hv & Hb).
    split; [|eauto]. destruct Hb as (scheme & _ & _ & Hs). exact Hs.
  - intros x Hr. pose proof (get_token_auth_header_cases req) as Hc.
    destruct (headers req !! "Authorization") as [value|].
    + destruct Hc as [(t & _ & Ht) | (_ & Ht)]; rewrite Ht in Hr.
      * discriminate Hr.
      * injection Hr as <-. auto.
    + rewrite Hc in Hr. injection Hr as <-. auto.
Qed.

Lemma get_token_auth_header_sound_witness :
  has_char space "" = false
  /\ exists value, headers (request_with "BEARER ") !! "Authorization" = Some value
                   /\ bearer_shape value "".
Proof.
  exact (proj1 (get_token_auth_header_sound (request_with "BEARER ")) "" eq_refl).
Defined.

(** ** What [check_permissions] accepts *)

Lemma startswith_spec p s :
  startswith p s = true <-> exists b, s = p +:+ b.
Proof.
  revert s. induction p as [|c p IH]; intros s; simpl.
  - split; [eauto | reflexivity].
  - destruct s as [|c' s].
    + split; [discriminate | intros (b & Hb); discriminate Hb].
    + rewrite andb_true_iff, Ascii.eqb_eq, IH. split.
      * intros (-> & b & ->). eauto.
      * intros (b & [= -> ->]). eauto.
Qed.

Lemma str_contains_spec p s :
  str_contains p s = true <-> exists a b, s = a +:+ p +:+ b.
Proof.
  split.
  - induction s as [|c s IH]; simpl; rewrite orb_true_iff.
    + intros [H|H]; [|discriminate]. apply startswith_spec in H as (b & ->).
      exists "", b. reflexivity.
    + intros [H|H].
      * apply startswith_spec in H as (b & ->). exists "", b. reflexivity.
      * apply IH in H as (a & b & ->). exists (String c a), b. reflexivity.
  - intros (a & b & ->). induction a as [|c a IH].
    + assert (Hs : startswith p (p +:+ b) = true) by (apply startswith_spec; eauto).
      simpl. destruct (p +:+ b); simpl in *; rewrite Hs; reflexivity.
    + simpl. rewrite IH. apply orb_true_r.
Qed.

Lemma check_permissions_inv permission payload b :
  (check_permissions permission payload).1 = Return b ->
  b = true
  /\ exists permissions,
       payload !! "permissions" = Some permissions
       /\ contains permission permissions = Return true.
Proof.
  unfold check_permissions.
  destruct (payload !! "permissions") as [c|]; simpl; [|discriminate].
  destruct (contains permission c) as [[]|x] eqn:Hc; simpl; try discriminate.
  intros [= <-]. eauto.
Qed.

(** X2.  [check_permissions] never returns [False]: when it returns, it
    returns [True], the payload has a "permissions" entry, and Python's
    [in] finds the required string in it, as an element when the entry
    is an array. *)
Theorem check_permissions_sound (permission : string) (payload : gmap string json)
        (b : bool) :
  (check_permissions permission payload).1 = Return b ->
  b = true
  /\ exists permissions,
       payload !! "permissions" = Some permissions
       /\ contains permission permissions = Return true
       /\ (forall l, permissions = JArr l -> In (JStr permission) l).
Proof.
  intros Hr. apply check_permissions_inv in Hr as (-> & c & Hp & Hc).
  split; [reflexivity|]. exists c. repeat split; try assumption.
  intros l ->. simpl in Hc. injection Hc as Hc. apply contains_array, Hc.
Qed.

Lemma check_permissions_sound_witness :
  true = true
  /\ exists permissions,
       payload_detail !! "permissions" = Some permissions
       /\ contains "get:drinks-detail" permissions = Return true
       /\ (forall l, permissions = JArr l -> In (JStr "get:drinks-detail") l).
Proof.
  exact (check_permissions_sound "get:drinks-detail" payload_detail true eq_refl).
Defined.

(** X3.  When the "permissions" entry is a string and not an array, [in]
    is the substring test: a permission is granted exactly when it occurs
    somewhere inside that string, so "post" passes against
    "post:drinks", and the empty permission against any string. *)
Theorem check_permissions_string_entry (permission : string)
        (payload : gmap string json) (s : string) :
  payload !! "permissions" = Some (JStr s) ->
  ((exists a b, s = a +:+ permission +:+ b) ->
   check_permissions permission payload = (Return true, payload))
  /\ (~ (exists a b, s = a +:+ permission +:+ b) ->
      check_permissions permission payload
      = (Raise (AuthErr permission_not_found), payload))
  /\ check_permissions "" payload = (Return true, payload).
Proof.
  intros Hp. split; [|split].
  - intros Hs. apply (check_permissions_found _ _ _ true Hp).
    simpl. f_equal. apply str_contains_spec, Hs.
  - intros Hn. apply (check_permissions_found _ _ _ false Hp).
    simpl. f_equal. apply not_true_is_false. intros H.
    apply Hn, str_contains_spec, H.
  - apply (check_permissions_found _ _ _ true Hp).
    simpl. f_equal. apply str_contains_spec. exists "", s. reflexivity.
Qed.

Lemma check_permissions_string_entry_witness :
  check_permissions "post" {[ "permissions" := JStr "get:drinks post:drinks" ]}
  = (Return true, {[ "permissions" := JStr "get:drinks post:drinks" ]}).
Proof.
  refine (proj1 (check_permissions_string_entry "post"
                   {[ "permissions" := JStr "get:drinks post:drinks" ]}
                   "get:drinks post:drinks" eq_refl) _).
  exists "get:drinks ", ":drinks". reflexivity.
Defined.

(** X4.  When the "permissions" entry is no collection at all ([null], a
    boolean, a number), the membership test raises [TypeError]: the
    function fails, but with no [AuthError], and the payload is left as
    it was. *)
Theorem check_permissions_not_a_collection (permission : string)
        (payload : gmap string json) (v : json) :
  payload !! "permissions" = Some v ->
  v = JNull \/ (exists b, v = JBool b) \/ (exists n, v = JNum n) ->
  check_permissions permission payload = (Raise (PyErr TypeError), payload)
  /\ forall e, (check_permissions permission payload).1 <> Raise (AuthErr e).
Proof.
  intros Hp Hv. unfold check_permissions. rewrite Hp.
  destruct Hv as [-> | [(b & ->) | (n & ->)]]; simpl; split;
    first [reflexivity | discriminate].
Qed.

Lemma check_permissions_not_a_collection_witness :
  check_permissions "post:drinks" {[ "permissions" := JNull ]}
  = (Raise (PyErr TypeError), {[ "permissions" := JNull ]}).
Proof.
  refine (proj1 (check_permissions_not_a_collection "post:drinks"
                   {[ "permissions" := JNull ]} JNull eq_refl _)).
  left. reflexivity.
Defined.

(** ** Where a returned payload comes from *)

Lemma truthy_empty : truthy (∅ : gmap string json) = false.
Proof. reflexivity. Qed.

Lemma build_rsa_key_first_missing m field :
  first_missing m key_fields = Some field ->
  build_rsa_key (JObj m) = Raise (PyErr (KeyError field)).
Proof.
  unfold build_rsa_key, key_fields, getitem. cbn [first_missing].
  destruct (m !! "kty"); simpl; [|intros [= <-]; reflexivity].
  destruct (m !! "kid"); simpl; [|intros [= <-]; reflexivity].
  destruct (m !! "use"); simpl; [|intros [= <-]; reflexivity].
  destruct (m !! "n"); simpl; [|intros [= <-]; reflexivity].
  destruct (m !! "e"); simpl; [discriminate | intros [= <-]; reflexivity].
Qed.

Lemma scan_keys_aborts header_kid pre entry post rsa_key x :
  Forall key_record pre ->
  (forall r, scan_step header_kid r entry = Raise x) ->
  scan_keys header_kid (pre ++ entry :: post) rsa_key = Raise x.
Proof.
  intros Hpre Hx. rewrite scan_keys_app.
  destruct (scan_keys_records header_kid pre rsa_key Hpre) as (r & ->).
  simpl. rewrite Hx. reflexivity.
Qed.

Section VerifierMore.

Variable urlopen_read : string -> py_exception + string.
Variable json_loads : string -> py_exception + json.
Variable get_unverified_header : string -> py_exception + gmap string json.
Variable jwt_decode :
  string -> gmap string json -> list string -> string -> string ->
  py_exception + gmap string json.

Abbreviation verify' :=
  (verify_decode_jwt urlopen_read json_loads get_unverified_header jwt_decode).
Abbreviation was_fetched' :=
  (fetched urlopen_read json_loads get_unverified_header).

Lemma decode_and_classify_inv token rsa_key payload :
  decode_and_classify jwt_decode token rsa_key = Return payload ->
  jwt_decode token rsa_key ALGORITHMS API_AUDIENCE issuer = inr payload.
Proof.
  unfold decode_and_classify.
  destruct (jwt_decode _ _ _ _ _) as [[]|p]; simpl; try discriminate.
  intros [= <-]. reflexivity.
Qed.

Lemma verify_decode_jwt_inv token payload :
  verify' token = Return payload ->
  exists jwks header header_kid keys entries entry rsa_key,
    was_fetched' token jwks header
    /\ header !! "kid" = Some header_kid
    /\ getitem jwks "keys" = Return keys
    /\ iter keys = Return entries
    /\ In entry entries
    /\ kid_matches header_kid entry
    /\ build_rsa_key entry = Return rsa_key
    /\ jwt_decode token rsa_key ALGORITHMS API_AUDIENCE issuer = inr payload.
Proof.
  unfold verify_decode_jwt.
  destruct (urlopen_read jwks_url) as [|text] eqn:Hu; simpl; [discriminate|].
  destruct (json_loads text) as [|jwks] eqn:Hj; simpl; [discriminate|].
  destruct (get_unverified_header token) as [|header] eqn:Hh; simpl; [discriminate|].
  destruct (header !! "kid") as [header_kid|] eqn:Hk; [|discriminate].
  destruct (getitem jwks "keys") as [keys|] eqn:Hg; simpl; [|discriminate].
  destruct (iter keys) as [entries|] eqn:Hi; simpl; [|discriminate].
  destruct (scan_keys header_kid entries ∅) as [rsa_key|] eqn:Hs; simpl;
    [|discriminate].
  destruct (truthy rsa_key) eqn:Ht; [|discriminate].
  intros Hd. apply decode_and_classify_inv in Hd.
  apply scan_keys_result in Hs as [-> | (entry & Hin & Hm & Hb)].
  - rewrite truthy_empty in Ht. discriminate Ht.
  - exists jwks, header, header_kid, keys, entries, entry, rsa_key.
    repeat split; try assumption. exists text. auto.
Qed.

(** X5.  Every payload [verify_decode_jwt] returns is one that
    [jwt.decode] returned for this token, for the algorithms ["RS256"],
    the audience "coffee" and the issuer "https://dev-vibe.us.auth0.com/",
    under a key built from an entry of the fetched key set whose kid
    equals the kid of the token's header. *)
Theorem verify_decode_jwt_sound (token : string) (payload : gmap string json) :
  verify' token = Return payload ->
  exists jwks header header_kid keys entries entry rsa_key,
    was_fetched' token jwks header
    /\ header !! "kid" = Some header_kid
    /\ getitem jwks "keys" = Return keys
    /\ iter keys = Return entries
    /\ In entry entries
    /\ kid_matches header_kid entry
    /\ build_rsa_key entry = Return rsa_key
    /\ jwt_decode token rsa_key ["RS256"] "coffee"
         "https://dev-vibe.us.auth0.com/" = inr payload.
Proof. apply verify_decode_jwt_inv. Qed.

(** X6.  A key-set document that is not what the issuer promises makes
    [verify_decode_jwt] fail with an exception of Python's, not with an
    [AuthError]: a document without "keys" raises [KeyError]; and the
    first entry that cannot be asked for its "kid" ends the scan with
    what the subscript raised, even if a later entry would match. *)
Theorem verify_decode_jwt_malformed_key_set
        (token : string) (jwks : json) (header : gmap string json)
        (header_kid : json) :
  was_fetched' token jwks header ->
  header !! "kid" = Some header_kid ->
  (forall m, jwks = JObj m -> m !! "keys" = None ->
             verify' token = Raise (PyErr (KeyError "keys")))
  /\ (forall pre entry post x,
        getitem jwks "keys" = Return (JArr (pre ++ entry :: post)) ->
        Forall key_record pre ->
        getitem entry "kid" = Raise x ->
        verify' token = Raise x /\ exists p, x = PyErr p).
Proof.
  intros Hf Hk. pose proof (verify_after_fetch _ _ _ jwt_decode _ _ _ Hf) as Hv.
  rewrite Hk in Hv. split.
  - intros m -> Hm. rewrite Hv. simpl. rewrite Hm. reflexivity.
  - intros pre entry post x Hg Hpre Hx. rewrite Hg in Hv. simpl in Hv.
    rewrite (scan_keys_aborts _ _ _ _ _ x Hpre) in Hv.
    + split; [exact Hv | eapply getitem_raises; eassumption].
    + intros r. unfold scan_step. rewrite Hx. reflexivity.
Qed.

(** X7.  An entry whose kid matches but which lacks one of the fields
    kty, use, n, e makes [verify_decode_jwt] raise [KeyError] for the
    first field that is missing, in that order; [jwt.decode] is not tried
    with a partial key. *)
Theorem verify_decode_jwt_incomplete_key
        (token : string) (jwks : json) (header : gmap string json)
        (header_kid : json) (pre : list json) (m : gmap string json)
        (post : list json) (field : string) :
  was_fetched' token jwks header ->
  header !! "kid" = Some header_kid ->
  getitem jwks "keys" = Return (JArr (pre ++ JObj m :: post)) ->
  Forall key_record pre ->
  kid_matches header_kid (JObj m) ->
  first_missing m key_fields = Some field ->
  verify' token = Raise (PyErr (KeyError field)).
Proof.
  intros Hf Hk Hg Hpre (kid & Hkid & He) Hm.
  rewrite (verify_after_fetch _ _ _ jwt_decode _ _ _ Hf), Hk, Hg. simpl.
  rewrite (scan_keys_aborts _ _ _ _ _ (PyErr (KeyError field)) Hpre);
    [reflexivity|].
  intros r. unfold scan_step. rewrite Hkid. simpl. rewrite He.
  apply build_rsa_key_first_missing, Hm.
Qed.

End VerifierMore.

Lemma verify_decode_jwt_sound_witness :
  exists jwks header header_kid keys entries entry rsa_key,
    fetched net_up loads_two_matches (read_header header_k1) "tok" jwks header
    /\ header !! "kid" = Some header_kid
    /\ getitem jwks "keys" = Return keys
    /\ iter keys = Return entries
    /\ In entry entries
    /\ kid_matches header_kid entry
    /\ build_rsa_key entry = Return rsa_key
    /\ decode_to (inr payload_detail) "tok" rsa_key ["RS256"] "coffee"
         "https://dev-vibe.us.auth0.com/" = inr payload_detail.
Proof.
  exact (verify_decode_jwt_sound net_up loads_two_matches (read_header header_k1)
           (decode_to (inr payload_detail)) "tok" payload_detail eq_refl).
Defined.

Lemma fetched_loads document header :
  fetched net_up (loads document) (read_header header) "tok" document header.
Proof. exists "{...}". repeat split; reflexivity. Qed.

Lemma verify_decode_jwt_malformed_key_set_witness :
  verify_decode_jwt net_up (loads jwks_without_keys) (read_header header_k1)
    (decode_to (inr payload_detail)) "tok"
  = Raise (PyErr (KeyError "keys"))
  /\ verify_decode_jwt net_up (loads jwks_broken_entry) (read_header header_k1)
       (decode_to (inr payload_detail)) "tok"
     = Raise (PyErr (KeyError "kid")).
Proof.
  split.
  - refine (proj1 (verify_decode_jwt_malformed_key_set net_up
              (loads jwks_without_keys) (read_header header_k1)
              (decode_to (inr payload_detail)) "tok" jwks_without_keys header_k1
              (JStr "k1") (fetched_loads _ _) eq_refl) _ eq_refl eq_refl).
  - refine (proj1 (proj2 (verify_decode_jwt_malformed_key_set net_up
              (loads jwks_broken_entry) (read_header header_k1)
              (decode_to (inr payload_detail)) "tok" jwks_broken_entry header_k1
              (JStr "k1") (fetched_loads _ _) eq_refl)
              [key_entry "k0" "other"] (JObj {[ "kty" := JStr "RSA" ]})
              [key_entry "k1" "last"] _ eq_refl _ eq_refl)).
    repeat constructor. apply key_record_fixture.
Defined.

Lemma verify_decode_jwt_incomplete_key_witness :
  verify_decode_jwt net_up (loads jwks_incomplete_key) (read_header header_k1)
    (decode_to (inr payload_detail)) "tok"
  = Raise (PyErr (KeyError "use")).
Proof.
  refine (verify_decode_jwt_incomplete_key net_up (loads jwks_incomplete_key)
            (read_header header_k1) (decode_to (inr payload_detail)) "tok"
            jwks_incomplete_key header_k1 (JStr "k1") [key_entry "k0" "other"]
            key_without_use [] "use" (fetched_loads _ _) eq_refl eq_refl _ _ eq_refl).
  - repeat constructor. apply key_record_fixture.
  - exists (JStr "k1"). split; reflexivity.
Defined.

(** ** More on the gate *)

Section GateMore.

Context {Db : Type}.
Variable urlopen_read : string -> py_exception + string.
Variable json_loads : string -> py_exception + json.
Variable get_unverified_header : string -> py_exception + gmap string json.
Variable jwt_decode :
  string -> gmap string json -> list string -> string -> string ->
  py_exception + gmap string json.

Abbreviation guarded' :=
  (requires_auth urlopen_read json_loads get_unverified_header jwt_decode).
Abbreviation verify'' :=
  (verify_decode_jwt urlopen_read json_loads get_unverified_header jwt_decode).
Abbreviation pass' :=
  (stages_pass urlopen_read json_loads get_unverified_header jwt_decode).

(** X8.  A token whose header [jwt.get_unverified_header] cannot read
    makes [verify_decode_jwt] fail with the library's exception, not with
    [invalid_header]: the call sits outside the [try].  The gate passes
    the exception on and does not call the view. *)
Theorem verify_decode_jwt_unreadable_token (token text : string) (jwks : json)
        (x : py_exception) :
  urlopen_read jwks_url = inr text ->
  json_loads text = inr jwks ->
  get_unverified_header token = inl x ->
  verify'' token = Raise (PyErr x)
  /\ (forall e, verify'' token <> Raise (AuthErr e))
  /\ (forall permission (f : view Db) args kwargs req w,
        get_token_auth_header req = Return token ->
        guarded' permission f args kwargs req w = (Raise (PyErr x), w)).
Proof.
  intros Hu Hj Hh.
  assert (Hv : verify'' token = Raise (PyErr x))
    by (unfold verify_decode_jwt; rewrite Hu; simpl; rewrite Hj; simpl;
        rewrite Hh; reflexivity).
  rewrite Hv. split; [reflexivity|]. split; [discriminate|].
  intros permission f args kwargs req w Ht.
  apply requires_auth_stops. right. left. eauto.
Qed.

(** X9.  A view behind [requires_auth] runs only for a request that
    carries an [Authorization] value of the bearer shape, whose token
    [jwt.decode] accepted under a key of the fetched key set, and whose
    payload has the required permission in its "permissions" entry. *)
Theorem requires_auth_sound
        (permission : string) (f : view Db) (args : list json)
        (kwargs : gmap string json) (req : request) (w : world Db) :
  invocations (guarded' permission f args kwargs req w).2 <> invocations w ->
  exists value token rsa_key payload permissions,
    headers req !! "Authorization" = Some value
    /\ bearer_shape value token
    /\ jwt_decode token rsa_key ALGORITHMS API_AUDIENCE issuer = inr payload
    /\ payload !! "permissions" = Some permissions
    /\ contains permission permissions = Return true.
Proof.
  intros Hlog.
  destruct (requires_auth_dichotomy urlopen_read json_loads get_unverified_header
              jwt_decode permission req) as [(x & Hx) | (payload & token & Ht & Hp & Hc)].
  - rewrite (requires_auth_stops _ _ _ _ permission f args kwargs req w _ Hx) in Hlog.
    contradiction.
  - apply get_token_auth_header_inv in Ht as (value & Hv & Hb).
    apply verify_decode_jwt_inv in Hp
      as (? & ? & ? & ? & ? & ? & rsa_key & _ & _ & _ & _ & _ & _ & _ & Hd).
    apply check_permissions_inv in Hc as (_ & permissions & Hperm & Hin).
    exists value, token, rsa_key, payload, permissions. auto.
Qed.

(** X10.  When the three stages pass, the wrapper is transparent: it
    returns what the view returns for the same arguments and request,
    leaves the table as the view leaves it, and has called the view
    once. *)
Theorem requires_auth_transparent
        (permission : string) (f : view Db) (args : list json)
        (kwargs : gmap string json) (req : request) (w : world Db)
        (payload : gmap string json) :
  pass' permission req payload ->
  guarded' permission f args kwargs req w
  = ((f args kwargs req (db w)).1,
     {| db := (f args kwargs req (db w)).2;
        invocations := invocations w ++ [(args, kwargs)] |}).
Proof.
  intros Hp. rewrite (requires_auth_proceeds _ _ _ _ _ _ _ _ _ _ _ Hp).
  unfold call_view. destruct (f args kwargs req (db w)). reflexivity.
Qed.

(** X11.  A verified token whose permissions array lacks the permission
    of the route is answered with status 401 and the body
    [{"success": false, "error": 401,
      "message": "needed permission not found in permissions"}];
    the view is not called and the table is untouched. *)
Theorem requires_auth_insufficient_permission
        (permission : string) (f : view Db) (args : list json)
        (kwargs : gmap string json) (req : request) (w : world Db)
        (token : string) (payload : gmap string json) (l : list json) :
  get_token_auth_header req = Return token ->
  verify'' token = Return payload ->
  payload !! "permissions" = Some (JArr l) ->
  ~ In (JStr permission) l ->
  dispatch (guarded' permission f) args kwargs req w
  = (Return (JObj {[ "success" := JBool false; "error" := JNum 401;
                     "message" :=
                       JStr "needed permission not found in permissions" ]},
             401), w).
Proof.
  intros Ht Hp Hperm Hn. unfold dispatch.
  rewrite (requires_auth_stops _ _ _ _ permission f args kwargs req w
             (AuthErr permission_not_found)); [reflexivity|].
  right. right. exists token, payload. repeat split; try assumption.
  rewrite (check_permissions_found _ _ _ false Hperm); [reflexivity|].
  apply contains_array_false, Hn.
Qed.

(** X12.  Every [AuthError] of the auth core has status 401, a
    dictionary of exactly two entries, and one of six codes. *)
Theorem auth_core_statuses (e : AuthError) :
  auth_core_raises urlopen_read json_loads get_unverified_header jwt_decode e ->
  status_code e = 401
  /\ size (error e) = 2%nat
  /\ exists code, has_code e code /\ In code auth_codes.
Proof.
  intros H. apply auth_core_raises_listed in H. unfold auth_errors in H.
  simpl in H.
  repeat (destruct H as [<- | H];
          [split; [reflexivity|]; split; [reflexivity|];
           eexists; split; [reflexivity | simpl; tauto]|]).
  contradiction.
Qed.

End GateMore.

(** ** The handlers of aborted requests *)

(** X13.  [api.py] answers [abort(code)] for the codes 400, 404 and 422
    and for no other; the answer has the status [code] and a body whose
    "error" is [code] and whose "success" is false. *)
Theorem abort_handler_consistent (code : Z) :
  (In code abort_codes <-> is_Some (abort_handler code))
  /\ (forall body status,
        abort_handler code = Some (body, status) ->
        status = code
        /\ exists fields message,
             body = JObj fields
             /\ fields !! "success" = Some (JBool false)
             /\ fields !! "error" = Some (JNum code)
             /\ fields !! "message" = Some (JStr message)
             /\ size fields = 3%nat)
  /\ (~ In code abort_codes ->
      errorhandler (PyErr (HTTPException code))
      = Raise (PyErr (HTTPException code))).
Proof.
  unfold abort_handler, abort_codes.
  destruct (code =? 422)%Z eqn:H422; [apply Z.eqb_eq in H422; subst code|].
  { split; [|split].
    - split; [eauto | simpl; tauto].
    - intros body status [= <- <-]. split; [reflexivity|].
      eexists _, _. repeat split; reflexivity.
    - simpl. intros Hn. exfalso. apply Hn. tauto. }
  destruct (code =? 404)%Z eqn:H404; [apply Z.eqb_eq in H404; subst code|].
  { split; [|split].
    - split; [eauto | simpl; tauto].
    - intros body status [= <- <-]. split; [reflexivity|].
      eexists _, _. repeat split; reflexivity.
    - simpl. intros Hn. exfalso. apply Hn. tauto. }
  destruct (code =? 400)%Z eqn:H400; [apply Z.eqb_eq in H400; subst code|].
  { split; [|split].
    - split; [eauto | simpl; tauto].
    - intros body status [= <- <-]. split; [reflexivity|].
      eexists _, _. repeat split; reflexivity.
    - simpl. intros Hn. exfalso. apply Hn. tauto. }
  apply Z.eqb_neq in H422, H404, H400.
  split; [|split].
  - split; [simpl; intros [<-|[<-|[<-|[]]]]; contradiction | intros [? [=]]].
  - discriminate.
  - intros _. unfold errorhandler, abort_handler.
    apply Z.eqb_neq in H422, H404, H400. rewrite H422, H404, H400. reflexivity.
Qed.

Lemma verify_decode_jwt_unreadable_token_witness :
  verify_decode_jwt net_up loads_two_matches unreadable_header
    (decode_to (inr payload_detail)) "not-a-token"
  = Raise (PyErr JWTError).
Proof.
  exact (proj1 (verify_decode_jwt_unreadable_token (Db:=unit) net_up
                  loads_two_matches unreadable_header
                  (decode_to (inr payload_detail)) "not-a-token" "{...}"
                  jwks_two_matches JWTError eq_refl eq_refl eq_refl)).
Defined.

Lemma requires_auth_sound_witness :
  exists value token rsa_key payload permissions,
    headers (request_with "Bearer tok") !! "Authorization" = Some value
    /\ bearer_shape value token
    /\ decode_to (inr payload_detail) token rsa_key ALGORITHMS API_AUDIENCE issuer
       = inr payload
    /\ payload !! "permissions" = Some permissions
    /\ contains "get:drinks-detail" permissions = Return true.
Proof.
  refine (requires_auth_sound net_up loads_two_matches (read_header header_k1)
            (decode_to (inr payload_detail)) "get:drinks-detail" echo_view [] ∅
            (request_with "Bearer tok") fresh_world _).
  vm_compute. discriminate.
Defined.

Lemma stages_pass_fixture :
  stages_pass net_up loads_two_matches (read_header header_k1)
    (decode_to (inr payload_detail)) "get:drinks-detail"
    (request_with "Bearer tok") payload_detail.
Proof. exists "tok". repeat split; reflexivity. Qed.

Lemma requires_auth_transparent_witness :
  requires_auth net_up loads_two_matches (read_header header_k1)
    (decode_to (inr payload_detail)) "get:drinks-detail" echo_view
    [JNum 7] ∅ (request_with "Bearer tok") fresh_world
  = ((echo_view [JNum 7] ∅ (request_with "Bearer tok") tt).1,
     {| db := (echo_view [JNum 7] ∅ (request_with "Bearer tok") tt).2;
        invocations := [([JNum 7], ∅)] |}).
Proof.
  exact (requires_auth_transparent net_up loads_two_matches (read_header header_k1)
           (decode_to (inr payload_detail)) "get:drinks-detail" echo_view
           [JNum 7] ∅ (request_with "Bearer tok") fresh_world payload_detail
           stages_pass_fixture).
Defined.

Lemma requires_auth_insufficient_permission_witness :
  dispatch (requires_auth net_up loads_two_matches (read_header header_k1)
              (decode_to (inr payload_detail)) "post:drinks" echo_view)
    [] ∅ (request_with "Bearer tok") fresh_world
  = (Return (JObj {[ "success" := JBool false; "error" := JNum 401;
                     "message" :=
                       JStr "needed permission not found in permissions" ]},
             401), fresh_world).
Proof.
  refine (requires_auth_insufficient_permission net_up loads_two_matches
            (read_header header_k1) (decode_to (inr payload_detail))
            "post:drinks" echo_view [] ∅ (request_with "Bearer tok") fresh_world
            "tok" payload_detail [JStr "get:drinks-detail"]
            eq_refl eq_refl eq_refl _).
  simpl. intros [H|[]]. discriminate H.
Defined.

Lemma auth_core_statuses_witness :
  status_code key_not_found = 401
  /\ size (error key_not_found) = 2%nat
  /\ exists code, has_code key_not_found code /\ In code auth_codes.
Proof.
  apply (auth_core_statuses net_up loads_two_matches (read_header header_k9)
           (decode_to (inr payload_detail)) key_not_found).
  right. left. exists "tok". reflexivity.
Defined.

Lemma abort_handler_consistent_witness :
  is_Some (abort_handler 404)
  /\ errorhandler (PyErr (HTTPException 500)) = Raise (PyErr (HTTPException 500)).
Proof.
  split.
  - apply (proj1 (proj1 (abort_handler_consistent 404))). simpl. tauto.
  - apply (proj2 (proj2 (abort_handler_consistent 500))).
    simpl. intros [H|[H|[H|[]]]]; discriminate H.
Defined.

(** * Properties of the views of [api.py] *)

Ltac run_view :=
  unfold mbind, mret, dbop_bind, dbop_ret, lift, abort, try_except, lib_call;
  simpl.

Lemma for_each_length {Db A B} (f : A -> dbop Db B) l d ys d' :
  for_each f l d = (Return ys, d') -> List.length ys = List.length l.
Proof.
  revert d ys d'. induction l as [|x l IH]; intros d ys d'; simpl.
  - run_view. intros [= <- _]. reflexivity.
  - run_view. destruct (f x d) as [[y|e] d1]; [|discriminate].
    destruct (for_each f l d1) as [[zs|e] d2] eqn:Hl; [|discriminate].
    intros [= <- _]. simpl. f_equal. eapply IH, Hl.
Qed.

Section ViewsProperties.

Context {Db Drink : Type} `{DrinkModel Db Drink}.
Variable get_json : request -> py_exception + json.
Variable json_dumps : json -> string.

(** X14.  [new_drink] looks at the body before it touches the table: a
    body without "title" or without "recipe" is aborted with 400, which
    the boundary answers with "bad request"; a body that is no object
    (no JSON body at all) raises [AttributeError]; in both cases no model
    operation has run and the table is as it was. *)
Theorem new_drink_rejects_incomplete_body (req : request) (d : Db) :
  (forall m, get_json req = inr (JObj m) ->
             m !! "title" = None \/ m !! "recipe" = None ->
             new_drink get_json json_dumps [] ∅ req d
             = (Raise (PyErr (HTTPException 400)), d))
  /\ (forall data, get_json req = inr data ->
                   (forall m, data <> JObj m) ->
                   new_drink get_json json_dumps [] ∅ req d
                   = (Raise (PyErr (OtherException "AttributeError")), d))
  /\ errorhandler (PyErr (HTTPException 400))
     = Return (JObj {[ "success" := JBool false; "error" := JNum 400;
                       "message" := JStr "bad request" ]}, 400).
Proof.
  split; [|split].
  - intros m Hj Hm. unfold new_drink. run_view. rewrite Hj. simpl.
    destruct (m !! "title"); [|reflexivity].
    destruct Hm as [Hm|Hm]; [discriminate Hm|]. rewrite Hm. reflexivity.
  - intros data Hj Hn. unfold new_drink. run_view. rewrite Hj. simpl.
    destruct data; try reflexivity. exfalso. eapply Hn. reflexivity.
  - reflexivity.
Qed.

(** X15.  [new_drink] on a body with both fields: the drink is built from
    the title and the dumped recipe and inserted.  Whatever [insert] or
    [long] raises, of whatever class, becomes [abort(422)], the table
    staying as the failed call left it; on success the answer is 200 with
    a list holding the one new drink. *)
Theorem new_drink_outcome (req : request) (d d1 : Db) (m : gmap string json)
        (title recipe : json) (drink : Drink) :
  get_json req = inr (JObj m) ->
  m !! "title" = Some title ->
  m !! "recipe" = Some recipe ->
  new_drink_object title (json_dumps recipe) d = (Return drink, d1) ->
  (forall x d2,
      insert drink d1 = (Raise x, d2) ->
      new_drink get_json json_dumps [] ∅ req d
      = (Raise (PyErr (HTTPException 422)), d2))
  /\ (forall drink' d2 x d3,
        insert drink d1 = (Return drink', d2) ->
        long drink' d2 = (Raise x, d3) ->
        new_drink get_json json_dumps [] ∅ req d
        = (Raise (PyErr (HTTPException 422)), d3))
  /\ (forall drink' d2 shown d3,
        insert drink d1 = (Return drink', d2) ->
        long drink' d2 = (Return shown, d3) ->
        new_drink get_json json_dumps [] ∅ req d
        = (Return (JObj {[ "success" := JBool true;
                           "drinks" := JArr [shown] ]}, 200), d3)).
Proof.
  intros Hj Ht Hr Hn.
  split; [|split].
  - intros x d2 Hi. unfold new_drink. run_view.
    rewrite Hj. simpl. rewrite Ht, Hr, Hn, Hi. reflexivity.
  - intros drink' d2 x d3 Hi Hl. unfold new_drink. run_view.
    rewrite Hj. simpl. rewrite Ht, Hr, Hn, Hi, Hl. reflexivity.
  - intros drink' d2 shown d3 Hi Hl. unfold new_drink. run_view.
    rewrite Hj. simpl. rewrite Ht, Hr, Hn, Hi, Hl. reflexivity.
Qed.

(** X16.  [edit_drink] and [drop_drink] answer an id that
    [Drink.query.get] does not find with [abort(404)] at once: the body
    of the request is not read, and neither [update] nor [delete] is
    called. *)
Theorem unknown_id_is_404 (args : list json) (kwargs : gmap string json)
        (req : request) (id : json) (d d1 : Db) :
  one_parameter "id" args kwargs = Return id ->
  query_get id d = (Return None, d1) ->
  edit_drink get_json json_dumps args kwargs req d
  = (Raise (PyErr (HTTPException 404)), d1)
  /\ drop_drink args kwargs req d = (Raise (PyErr (HTTPException 404)), d1)
  /\ errorhandler (PyErr (HTTPException 404))
     = Return (JObj {[ "success" := JBool false; "error" := JNum 404;
                       "message" := JStr "resource not found" ]}, 404).
Proof.
  intros Hid Hq. split; [|split].
  - unfold edit_drink. run_view. rewrite Hid, Hq. reflexivity.
  - unfold drop_drink. run_view. rewrite Hid, Hq. reflexivity.
  - reflexivity.
Qed.

(** X17.  [edit_drink] with a body that has neither "title" nor "recipe"
    changes no field but still calls [update] on the drink it found; the
    answer carries the drink itself under "drinks", not a list of one,
    and a failing [update] becomes [abort(422)]. *)
Theorem edit_drink_empty_patch (args : list json) (kwargs : gmap string json)
        (req : request) (id : json) (d d1 : Db) (my_drink : Drink)
        (m : gmap string json) :
  one_parameter "id" args kwargs = Return id ->
  query_get id d = (Return (Some my_drink), d1) ->
  drink_is_true my_drink = true ->
  get_json req = inr (JObj m) ->
  m !! "title" = None ->
  m !! "recipe" = None ->
  (forall updated d2 shown d3,
      update my_drink d1 = (Return updated, d2) ->
      long updated d2 = (Return shown, d3) ->
      edit_drink get_json json_dumps args kwargs req d
      = (Return (JObj {[ "success" := JBool true; "drinks" := shown ]}, 200), d3))
  /\ (forall x d2,
        update my_drink d1 = (Raise x, d2) ->
        edit_drink get_json json_dumps args kwargs req d
        = (Raise (PyErr (HTTPException 422)), d2)).
Proof.
  intros Hid Hq Htrue Hj Ht Hr. split.
  - intros updated d2 shown d3 Hu Hl. unfold edit_drink. run_view.
    rewrite Hid, Hq, Htrue. simpl. rewrite Hj. simpl.
    rewrite Ht, Hr, Hu, Hl. reflexivity.
  - intros x d2 Hu. unfold edit_drink. run_view.
    rewrite Hid, Hq, Htrue. simpl. rewrite Hj. simpl.
    rewrite Ht, Hr, Hu. reflexivity.
Qed.

(** X18.  [drop_drink] on an id that is found: when [delete] returns, the
    answer is 200 with the id of the call under "delete"; when [delete]
    raises, whatever it raises becomes [abort(422)]. *)
Theorem drop_drink_outcome (args : list json) (kwargs : gmap string json)
        (req : request) (id : json) (d d1 : Db) (my_drink : Drink) :
  one_parameter "id" args kwargs = Return id ->
  query_get id d = (Return (Some my_drink), d1) ->
  drink_is_true my_drink = true ->
  (forall d2,
      delete my_drink d1 = (Return tt, d2) ->
      drop_drink args kwargs req d
      = (Return (JObj {[ "success" := JBool true; "delete" := id ]}, 200), d2))
  /\ (forall x d2,
        delete my_drink d1 = (Raise x, d2) ->
        drop_drink args kwargs req d = (Raise (PyErr (HTTPException 422)), d2)).
Proof.
  intros Hid Hq Htrue. split.
  - intros d2 Hd. unfold drop_drink. run_view.
    rewrite Hid, Hq, Htrue. simpl. rewrite Hd. reflexivity.
  - intros x d2 Hd. unfold drop_drink. run_view.
    rewrite Hid, Hq, Htrue. simpl. rewrite Hd. reflexivity.
Qed.

(** X19.  When [get_drinks] or [drinks_detail] answers, the status is 200
    and "drinks" is an array with one entry for every drink that
    [Drink.query.all()] returned. *)
Theorem listing_has_one_entry_per_drink (args : list json)
        (kwargs : gmap string json) (req : request) (d d' : Db)
        (body : json) (status : Z) :
  get_drinks args kwargs req d = (Return (body, status), d')
  \/ drinks_detail args kwargs req d = (Return (body, status), d') ->
  status = 200
  /\ exists all_drinks d1 shown,
       query_all d = (Return all_drinks, d1)
       /\ body = JObj {[ "success" := JBool true; "drinks" := JArr shown ]}
       /\ List.length shown = List.length all_drinks.
Proof.
  unfold get_drinks, drinks_detail. run_view.
  destruct (no_parameters args kwargs) as [[]|]; simpl.
  - destruct (query_all d) as [[all_drinks|] d1];
      [|intros [Hx|Hx]; discriminate Hx].
    intros [Hx|Hx].
    + destruct (for_each short all_drinks d1) as [[shown|] d2] eqn:Hf;
        [|discriminate Hx].
      injection Hx as <- <- <-. split; [reflexivity|].
      exists all_drinks, d1, shown. repeat split.
      eapply for_each_length, Hf.
    + destruct (for_each long all_drinks d1) as [[shown|] d2] eqn:Hf;
        [|discriminate Hx].
      injection Hx as <- <- <-. split; [reflexivity|].
      exists all_drinks, d1, shown. repeat split.
      eapply for_each_length, Hf.
  - intros [Hx|Hx]; discriminate Hx.
Qed.

End ViewsProperties.

(** ** The views on a small table *)

Lemma new_drink_rejects_incomplete_body_witness :
  new_drink (body_json (JObj {[ "title" := JStr "latte" ]})) toy_dumps [] ∅
    request_without_header toy_table
  = (Raise (PyErr (HTTPException 400)), toy_table)
  /\ new_drink (body_json JNull) toy_dumps [] ∅ request_without_header toy_table
     = (Raise (PyErr (OtherException "AttributeError")), toy_table).
Proof.
  split.
  - refine (proj1 (new_drink_rejects_incomplete_body (H:=toy_model)
              (body_json (JObj {[ "title" := JStr "latte" ]})) toy_dumps
              request_without_header toy_table) _ eq_refl _).
    right. reflexivity.
  - refine (proj1 (proj2 (new_drink_rejects_incomplete_body (H:=toy_model)
              (body_json JNull) toy_dumps request_without_header toy_table))
              JNull eq_refl _).
    discriminate.
Defined.

Lemma new_drink_outcome_witness :
  new_drink (body_json (JObj {[ "title" := JStr "mocha"; "recipe" := JStr "[]" ]}))
    toy_dumps [] ∅ request_without_header toy_table
  = (Raise (PyErr (HTTPException 422)), toy_table)
  /\ new_drink (body_json (JObj {[ "title" := JStr "latte"; "recipe" := JStr "[]" ]}))
       toy_dumps [] ∅ request_without_header toy_table
     = (Return (JObj {[ "success" := JBool true;
                        "drinks" := JArr [toy_show true (mkToy 2 "latte" "[]")] ]},
                200),
        [mocha; mkToy 2 "latte" "[]"]).
Proof.
  split.
  - refine (proj1 (new_drink_outcome (H:=toy_model)
              (body_json (JObj {[ "title" := JStr "mocha"; "recipe" := JStr "[]" ]}))
              toy_dumps request_without_header toy_table toy_table _
              (JStr "mocha") (JStr "[]") (mkToy 0 "mocha" "[]")
              eq_refl eq_refl eq_refl eq_refl)
              (PyErr (OtherException "IntegrityError")) toy_table eq_refl).
  - refine (proj2 (proj2 (new_drink_outcome (H:=toy_model)
              (body_json (JObj {[ "title" := JStr "latte"; "recipe" := JStr "[]" ]}))
              toy_dumps request_without_header toy_table toy_table _
              (JStr "latte") (JStr "[]") (mkToy 0 "latte" "[]")
              eq_refl eq_refl eq_refl eq_refl))
              (mkToy 2 "latte" "[]") [mocha; mkToy 2 "latte" "[]"]
              (toy_show true (mkToy 2 "latte" "[]"))
              [mocha; mkToy 2 "latte" "[]"] eq_refl eq_refl).
Defined.

Lemma unknown_id_is_404_witness :
  edit_drink (body_json JNull) toy_dumps [] {[ "id" := JNum 9 ]}
    request_without_header toy_table
  = (Raise (PyErr (HTTPException 404)), toy_table)
  /\ drop_drink [] {[ "id" := JNum 9 ]} request_without_header toy_table
     = (Raise (PyErr (HTTPException 404)), toy_table).
Proof.
  pose proof (unknown_id_is_404 (H:=toy_model) (body_json JNull) toy_dumps
                [] {[ "id" := JNum 9 ]} request_without_header (JNum 9)
                toy_table toy_table eq_refl eq_refl) as (He & Hd & _).
  split; assumption.
Defined.

Lemma edit_drink_empty_patch_witness :
  edit_drink (body_json (JObj ∅)) toy_dumps [] {[ "id" := JNum 1 ]}
    request_without_header toy_table
  = (Return (JObj {[ "success" := JBool true; "drinks" := toy_show true mocha ]},
             200), toy_table).
Proof.
  refine (proj1 (edit_drink_empty_patch (H:=toy_model) (body_json (JObj ∅))
            toy_dumps [] {[ "id" := JNum 1 ]} request_without_header (JNum 1)
            toy_table toy_table mocha ∅
            eq_refl eq_refl eq_refl eq_refl eq_refl eq_refl)
            mocha toy_table (toy_show true mocha) toy_table eq_refl eq_refl).
Defined.

Lemma drop_drink_outcome_witness :
  drop_drink [] {[ "id" := JNum 1 ]} request_without_header toy_table
  = (Return (JObj {[ "success" := JBool true; "delete" := JNum 1 ]}, 200), []).
Proof.
  refine (proj1 (drop_drink_outcome (H:=toy_model) [] {[ "id" := JNum 1 ]}
            request_without_header (JNum 1) toy_table toy_table mocha
            eq_refl eq_refl eq_refl) [] eq_refl).
Defined.

Lemma listing_has_one_entry_per_drink_witness :
  200 = 200
  /\ exists all_drinks d1 shown,
       query_all toy_table = (Return all_drinks, d1)
       /\ JObj {[ "success" := JBool true;
                  "drinks" := JArr [toy_show false mocha] ]}
          = JObj {[ "success" := JBool true; "drinks" := JArr shown ]}
       /\ List.length shown = List.length all_drinks.
Proof.
  refine (listing_has_one_entry_per_drink (H:=toy_model) [] ∅
            request_without_header toy_table toy_table _ 200
            (or_introl eq_refl)).
Defined.

(** ** The protected routes, end to end *)

Lemma one_parameter_keyword name (v : json) :
  one_parameter name [] {[ name := v ]} = Return v.
Proof.
  unfold one_parameter. rewrite lookup_singleton_eq, map_size_singleton.
  reflexivity.
Qed.

Section Routes.

Context {Db Drink : Type} `{DrinkModel Db Drink}.
Variable get_json : request -> py_exception + json.
Variable json_dumps : json -> string.
Variable urlopen_read : string -> py_exception + string.
Variable json_loads : string -> py_exception + json.
Variable get_unverified_header : string -> py_exception + gmap string json.
Variable jwt_decode :
  string -> gmap string json -> list string -> string -> string ->
  py_exception + gmap string json.

Abbreviation route :=
  (requires_auth urlopen_read json_loads get_unverified_header jwt_decode).

(** X20.  Each of the four routes that [@requires_auth] guards answers a
    request without an [Authorization] header with status 401 and the
    message "Authorization header is expected"; its view is not called
    and the table is untouched, whatever the arguments of the call. *)
Theorem protected_routes_demand_header
        (permission : string) (v : view Db) (args : list json)
        (kwargs : gmap string json) (req : request) (w : world Db) :
  In (permission, v) (protected_routes get_json json_dumps) ->
  headers req !! "Authorization" = None ->
  dispatch (route permission v) args kwargs req w
  = (Return (JObj {[ "success" := JBool false; "error" := JNum 401;
                     "message" := JStr "Authorization header is expected" ]},
             401), w)
  /\ In permission ["get:drinks-detail"; "post:drinks"; "patch:drinks";
                    "delete:drinks"].
Proof.
  intros Hin Hh. split.
  - unfold dispatch.
    rewrite (requires_auth_stops _ _ _ _ permission v args kwargs req w
               (AuthErr header_missing)); [reflexivity|].
    left. unfold get_token_auth_header. rewrite Hh. reflexivity.
  - unfold protected_routes in Hin. simpl in Hin.
    destruct Hin as [[= <- _]|[[= <- _]|[[= <- _]|[[= <- _]|[]]]]];
      simpl; tauto.
Qed.

(** X21.  The delete route, end to end: for a request that passes the
    gate with the permission "delete:drinks" and names a drink that is
    found and deleted, the answer is 200 with
    [{"success": true, "delete": id}], the table is the one [delete]
    left, and the view has run once. *)
Theorem delete_route_end_to_end
        (req : request) (w : world Db) (payload : gmap string json)
        (id : json) (my_drink : Drink) (d1 d2 : Db) :
  stages_pass urlopen_read json_loads get_unverified_header jwt_decode
    "delete:drinks" req payload ->
  query_get id (db w) = (Return (Some my_drink), d1) ->
  drink_is_true my_drink = true ->
  delete my_drink d1 = (Return tt, d2) ->
  dispatch (route "delete:drinks" drop_drink) [] {[ "id" := id ]} req w
  = (Return (JObj {[ "success" := JBool true; "delete" := id ]}, 200),
     {| db := d2;
        invocations := invocations w ++ [([], {[ "id" := id ]})] |}).
Proof.
  intros Hp Hq Htrue Hd. unfold dispatch.
  rewrite (requires_auth_proceeds _ _ _ _ _ _ _ _ _ _ _ Hp).
  unfold call_view, drop_drink, mbind, dbop_bind, lift.
  rewrite one_parameter_keyword, Hq, Htrue. run_view.
  rewrite Hd. reflexivity.
Qed.

End Routes.

Lemma protected_routes_demand_header_witness :
  dispatch (requires_auth net_up loads_two_matches (read_header header_k1)
              (decode_to (inr payload_detail)) "delete:drinks" drop_drink)
    [] {[ "id" := JNum 1 ]} request_without_header
    {| db := toy_table; invocations := [] |}
  = (Return (JObj {[ "success" := JBool false; "error" := JNum 401;
                     "message" := JStr "Authorization header is expected" ]},
             401), {| db := toy_table; invocations := [] |}).
Proof.
  refine (proj1 (protected_routes_demand_header (H:=toy_model)
            (body_json JNull) toy_dumps net_up loads_two_matches
            (read_header header_k1) (decode_to (inr payload_detail))
            "delete:drinks" drop_drink [] {[ "id" := JNum 1 ]}
            request_without_header {| db := toy_table; invocations := [] |}
            _ eq_refl)).
  simpl. tauto.
Defined.

Lemma stages_pass_delete :
  stages_pass net_up loads_two_matches (read_header header_k1)
    (decode_to (inr {[ "permissions" := JArr [JStr "delete:drinks"] ]}))
    "delete:drinks" (request_with "Bearer tok")
    {[ "permissions" := JArr [JStr "delete:drinks"] ]}.
Proof. exists "tok". repeat split; reflexivity. Qed.

Lemma delete_route_end_to_end_witness :
  dispatch (requires_auth net_up loads_two_matches (read_header header_k1)
              (decode_to (inr {[ "permissions" := JArr [JStr "delete:drinks"] ]}))
              "delete:drinks" drop_drink)
    [] {[ "id" := JNum 1 ]} (request_with "Bearer tok")
    {| db := toy_table; invocations := [] |}
  = (Return (JObj {[ "success" := JBool true; "delete" := JNum 1 ]}, 200),
     {| db := []; invocations := [([], {[ "id" := JNum 1 ]})] |}).
Proof.
  exact (delete_route_end_to_end (H:=toy_model) net_up loads_two_matches
           (read_header header_k1)
           (decode_to (inr {[ "permissions" := JArr [JStr "delete:drinks"] ]}))
           (request_with "Bearer tok") {| db := toy_table; invocations := [] |}
           {[ "permissions" := JArr [JStr "delete:drinks"] ]} (JNum 1) mocha
           toy_table [] stages_pass_delete eq_refl eq_refl eq_refl).
Defined.
